(** * DS1302 real-time-clock driver (components/ds1302/ds1302.c)

    A shallow embedding of the three-wire bit-banged driver.  The platform
    (GPIO, busy-wait delay, critical section) is an explicit [world]: every
    platform call is appended to a trace, the return code of each fallible
    GPIO call and the level sampled by each [gpio_get_level] are taken from
    two queues held in the world, and the critical section is a nesting
    counter.  Driver functions are state transformers returning the
    [esp_err_t] together with the contents of their out-parameters. *)

From Stdlib Require Import ZArith List Bool Lia.
Import ListNotations.
Open Scope Z_scope.

(** ** Error codes and register constants *)

Definition esp_err_t := Z.
Definition ESP_OK : esp_err_t := 0.
Definition ESP_ERR_INVALID_ARG : esp_err_t := 0x102.

Definition is_ok (e : esp_err_t) : bool := e =? ESP_OK.

(** Conversion to [uint8_t]. *)
Definition u8 (z : Z) : Z := z mod 256.

Definition CH_REG : Z := 0x80.
Definition WP_REG : Z := 0x8e.

Definition CH_BIT : Z := Z.shiftl 1 7.
Definition WP_BIT : Z := Z.shiftl 1 7.
Definition HOUR12_BIT : Z := Z.shiftl 1 7.
Definition PM_BIT : Z := Z.shiftl 1 5.

Definition CH_MASK : Z := u8 (Z.lnot CH_BIT).
Definition WP_MASK : Z := u8 (Z.lnot WP_BIT).

Definition CLOCK_BURST : Z := 0xbe.
Definition RAM_BURST : Z := 0xfe.

Definition SECONDS_MASK : Z := 0x7f.
Definition HOUR12_MASK : Z := 0x1f.
Definition HOUR24_MASK : Z := 0x3f.

(** [GPIO_BIT(x)] is [1ULL << x]. *)
Definition GPIO_BIT (x : Z) : Z := Z.shiftl 1 x mod 2 ^ 64.

(** ** Data model *)

Record ds1302_t := mk_ds1302 {
  ce_pin : Z;
  io_pin : Z;
  sclk_pin : Z;
  ch : bool
}.

Definition set_ch (dev : ds1302_t) (b : bool) : ds1302_t :=
  {| ce_pin := ce_pin dev; io_pin := io_pin dev;
     sclk_pin := sclk_pin dev; ch := b |}.

(** [struct tm] of the C library. *)
Record tm := mk_tm {
  tm_sec : Z;
  tm_min : Z;
  tm_hour : Z;
  tm_mday : Z;
  tm_mon : Z;
  tm_year : Z;
  tm_wday : Z;
  tm_yday : Z;
  tm_isdst : Z
}.

(** ** The platform *)

Inductive gpio_mode_t := GPIO_MODE_INPUT | GPIO_MODE_OUTPUT.

Inductive event :=
| EvConfig (pin_bit_mask : Z) (mode : gpio_mode_t)
| EvSetDirection (pin : Z) (mode : gpio_mode_t)
| EvSetLevel (pin : Z) (level : Z)
| EvGetLevel (pin : Z)
| EvDelay (us : Z).

Record world := mk_world {
  crit : nat;                  (* nesting depth of the critical section *)
  gpio_rc : list esp_err_t;    (* results of the coming fallible GPIO calls;
                                  calls past the end succeed *)
  io_level : list bool;        (* levels the coming gpio_get_level calls
                                  sample; low past the end *)
  trace : list event           (* platform calls made so far, oldest first *)
}.

Definition M (A : Type) : Type := world -> esp_err_t * A * world.

Definition ret {A} (e : esp_err_t) (a : A) : M A := fun w => (e, a, w).

(** [CHECK(x)]: return the error of [x] at once, else go on.  [out] gives
    the contents of the caller's out-parameters at the early return. *)
Definition check {A B} (x : M A) (out : A -> B) (k : A -> M B) : M B :=
  fun w =>
    let '(e, a, w1) := x w in
    if is_ok e then k a w1 else (e, out a, w1).

Definition PORT_ENTER_CRITICAL (w : world) : world :=
  {| crit := S (crit w); gpio_rc := gpio_rc w;
     io_level := io_level w; trace := trace w |}.

Definition PORT_EXIT_CRITICAL (w : world) : world :=
  {| crit := Nat.pred (crit w); gpio_rc := gpio_rc w;
     io_level := io_level w; trace := trace w |}.

(** [CHECK_MUX(x)]: as [CHECK], leaving the critical section first. *)
Definition check_mux {A B} (x : M A) (out : A -> B) (k : A -> M B) : M B :=
  fun w =>
    let '(e, a, w1) := x w in
    if is_ok e then k a w1 else (e, out a, PORT_EXIT_CRITICAL w1).

(** A call that cannot fail. *)
Definition void {B} (f : world -> world) (k : M B) : M B :=
  fun w => k (f w).

Notation "'CHECK' x ;; k" := (check x (fun _ => tt) (fun _ => k))
  (at level 61, x at next level, right associativity).
Notation "'CHECK_MUX' x ;; k" := (check_mux x (fun _ => tt) (fun _ => k))
  (at level 61, x at next level, right associativity).
Notation "'DO' f ;; k" := (void f k)
  (at level 61, f at next level, right associativity).

Definition platform_call (ev : event) : M unit :=
  fun w =>
    (hd ESP_OK (gpio_rc w), tt,
     {| crit := crit w; gpio_rc := tl (gpio_rc w);
        io_level := io_level w; trace := trace w ++ [ev] |}).

Definition gpio_config (pin_bit_mask : Z) (mode : gpio_mode_t) : M unit :=
  platform_call (EvConfig pin_bit_mask mode).

Definition gpio_set_direction (pin : Z) (mode : gpio_mode_t) : M unit :=
  platform_call (EvSetDirection pin mode).

Definition gpio_set_level (pin : Z) (level : Z) : M unit :=
  platform_call (EvSetLevel pin level).

Definition gpio_get_level (pin : Z) (w : world) : Z * world :=
  (Z.b2z (hd false (io_level w)),
   {| crit := crit w; gpio_rc := gpio_rc w;
      io_level := tl (io_level w); trace := trace w ++ [EvGetLevel pin] |}).

Definition ets_delay_us (us : Z) (w : world) : world :=
  {| crit := crit w; gpio_rc := gpio_rc w;
     io_level := io_level w; trace := trace w ++ [EvDelay us] |}.

(** ** Time codec *)

Definition bcd2dec (val : Z) : Z :=
  u8 (Z.shiftr val 4 * 10 + Z.land val 0x0f).

Definition dec2bcd (val : Z) : Z :=
  u8 (Z.shiftl (val / 10) 4 + val mod 10).

(** ** Bit-level transport and transaction framing *)

Definition chip_enable (dev : ds1302_t) : M unit :=
  CHECK gpio_set_level (ce_pin dev) 1 ;;
  DO ets_delay_us 4 ;;
  ret ESP_OK tt.

Definition chip_disable (dev : ds1302_t) : M unit :=
  gpio_set_level (ce_pin dev) 0.

Definition prepare (dev : ds1302_t) (mode : gpio_mode_t) : M unit :=
  CHECK gpio_set_direction (io_pin dev) mode ;;
  CHECK gpio_set_level (sclk_pin dev) 0 ;;
  chip_enable dev.

Definition toggle_clock (dev : ds1302_t) : M unit :=
  CHECK gpio_set_level (sclk_pin dev) 1 ;;
  DO ets_delay_us 1 ;;
  CHECK gpio_set_level (sclk_pin dev) 0 ;;
  DO ets_delay_us 1 ;;
  ret ESP_OK tt.

(** The loop of [write_byte]: [n] iterations left, at bit [i]. *)
Fixpoint write_bits (dev : ds1302_t) (b : Z) (i : Z) (n : nat) : M unit :=
  match n with
  | O => ret ESP_OK tt
  | S n' =>
      CHECK gpio_set_level (io_pin dev) (Z.land (Z.shiftr b i) 1) ;;
      CHECK toggle_clock dev ;;
      write_bits dev b (i + 1) n'
  end.

Definition write_byte (dev : ds1302_t) (b : Z) : M unit :=
  write_bits dev b 0 8.

(** The loop of [read_byte]: [b] is the current content of [*b]. *)
Fixpoint read_bits (dev : ds1302_t) (i : Z) (n : nat) (b : Z) : M Z :=
  match n with
  | O => ret ESP_OK b
  | S n' =>
      fun w =>
        let '(lvl, w1) := gpio_get_level (io_pin dev) w in
        let b' := u8 (Z.lor b (Z.shiftl lvl i)) in
        check (toggle_clock dev) (fun _ => b')
              (fun _ => read_bits dev (i + 1) n' b') w1
  end.

Definition read_byte (dev : ds1302_t) : M Z :=
  read_bits dev 0 8 0.

(** ** Register and burst access *)

Definition read_register (dev : ds1302_t) (reg : Z) (val : Z) : M Z :=
  DO PORT_ENTER_CRITICAL ;;
  check_mux (prepare dev GPIO_MODE_OUTPUT) (fun _ => val) (fun _ =>
  check_mux (write_byte dev (u8 (Z.lor reg 0x01))) (fun _ => val) (fun _ =>
  check_mux (prepare dev GPIO_MODE_INPUT) (fun _ => val) (fun _ =>
  check_mux (read_byte dev) (fun v => v) (fun v =>
  DO PORT_EXIT_CRITICAL ;;
  check (chip_disable dev) (fun _ => v) (fun _ => ret ESP_OK v))))).

Definition write_register (dev : ds1302_t) (reg : Z) (val : Z) : M unit :=
  DO PORT_ENTER_CRITICAL ;;
  CHECK_MUX prepare dev GPIO_MODE_OUTPUT ;;
  CHECK_MUX write_byte dev reg ;;
  CHECK_MUX write_byte dev val ;;
  DO PORT_ENTER_CRITICAL ;;
  chip_disable dev.

(** Store through a pointer into a buffer; a store past the end of the
    buffer (undefined in C) leaves the list as it is. *)
Fixpoint store (l : list Z) (i : nat) (v : Z) : list Z :=
  match l, i with
  | [], _ => []
  | _ :: t, O => v :: t
  | h :: t, S i' => h :: store t i' v
  end.

(** The loop of [burst_read]: [n] bytes left, [dst] pointing at index [i]. *)
Fixpoint burst_read_loop (dev : ds1302_t) (dst : list Z) (i : nat) (n : nat)
  : M (list Z) :=
  match n with
  | O =>
      DO PORT_EXIT_CRITICAL ;;
      check (chip_disable dev) (fun _ => dst) (fun _ => ret ESP_OK dst)
  | S n' =>
      check_mux (read_byte dev) (fun v => store dst i v)
                (fun v => burst_read_loop dev (store dst i v) (S i) n')
  end.

Definition burst_read (dev : ds1302_t) (reg : Z) (dst : list Z) (len : Z)
  : M (list Z) :=
  DO PORT_ENTER_CRITICAL ;;
  check_mux (prepare dev GPIO_MODE_OUTPUT) (fun _ => dst) (fun _ =>
  check_mux (write_byte dev (u8 (Z.lor reg 0x01))) (fun _ => dst) (fun _ =>
  check_mux (prepare dev GPIO_MODE_INPUT) (fun _ => dst) (fun _ =>
  burst_read_loop dev dst 0 (Z.to_nat len)))).

(** The loop of [burst_write]; a read past the end of [src] (undefined in
    C) yields 0. *)
Fixpoint burst_write_loop (dev : ds1302_t) (src : list Z) (i : nat) (n : nat)
  : M unit :=
  match n with
  | O =>
      DO PORT_EXIT_CRITICAL ;;
      chip_disable dev
  | S n' =>
      CHECK_MUX write_byte dev (nth i src 0) ;;
      burst_write_loop dev src (S i) n'
  end.

Definition burst_write (dev : ds1302_t) (reg : Z) (src : list Z) (len : Z)
  : M unit :=
  DO PORT_ENTER_CRITICAL ;;
  CHECK_MUX prepare dev GPIO_MODE_OUTPUT ;;
  CHECK_MUX write_byte dev reg ;;
  burst_write_loop dev src 0 (Z.to_nat len).

Definition update_register (dev : ds1302_t) (reg mask val : Z) : M unit :=
  check (read_register dev reg 0) (fun _ => tt) (fun r =>
  write_register dev reg (u8 (Z.lor (Z.land r mask) val))).

(** ** Public operations

    A pointer argument is an [option]: [None] is the null pointer, [Some x]
    a valid pointer to a cell holding [x].  Each operation returns the
    contents of the cells it may write. *)

Definition ds1302_is_running (dev : option ds1302_t) (running : option bool)
  : M (option ds1302_t * option bool) :=
  match dev with
  | None => ret ESP_ERR_INVALID_ARG (dev, running)
  | Some d =>
      match running with
      | None => ret ESP_ERR_INVALID_ARG (dev, running)
      | Some _ =>
          check (read_register d CH_REG 0) (fun _ => (dev, running)) (fun r =>
          let running' := Z.land r CH_BIT =? 0 in
          ret ESP_OK (Some (set_ch d (negb running')), Some running'))
      end
  end.

Definition ds1302_init (dev : option ds1302_t) : M (option ds1302_t) :=
  match dev with
  | None => ret ESP_ERR_INVALID_ARG dev
  | Some d =>
      let pin_bit_mask :=
        Z.lor (Z.lor (GPIO_BIT (ce_pin d)) (GPIO_BIT (io_pin d)))
              (GPIO_BIT (sclk_pin d)) in
      check (gpio_config pin_bit_mask GPIO_MODE_OUTPUT) (fun _ => dev) (fun _ =>
      check (ds1302_is_running dev (Some false)) fst (fun dr =>
      match dr with
      | (Some d', Some r) => ret ESP_OK (Some (set_ch d' (negb r)))
      | (dev', _) => ret ESP_OK dev'
      end))
  end.

Definition ds1302_start (dev : option ds1302_t) (start : bool)
  : M (option ds1302_t) :=
  match dev with
  | None => ret ESP_ERR_INVALID_ARG dev
  | Some d =>
      check (update_register d CH_REG CH_MASK (if start then 0 else CH_BIT))
            (fun _ => dev)
            (fun _ => ret ESP_OK (Some (set_ch d (negb start))))
  end.

Definition ds1302_set_write_protect (dev : option ds1302_t) (wp : bool)
  : M unit :=
  match dev with
  | None => ret ESP_ERR_INVALID_ARG tt
  | Some d => update_register d WP_REG WP_MASK (if wp then WP_BIT else 0)
  end.

Definition ds1302_get_write_protect (dev : option ds1302_t) (wp : option bool)
  : M (option bool) :=
  match dev with
  | None => ret ESP_ERR_INVALID_ARG wp
  | Some d =>
      match wp with
      | None => ret ESP_ERR_INVALID_ARG wp
      | Some _ =>
          check (read_register d WP_REG 0) (fun _ => wp) (fun r =>
          ret ESP_OK (Some (negb (Z.land r WP_BIT =? 0))))
      end
  end.

(** The hour field as [ds1302_get_time] decodes it from [buf[2]]. *)
Definition decode_hour (raw : Z) : Z :=
  if negb (Z.land raw HOUR12_BIT =? 0) then
    let h := bcd2dec (Z.land raw HOUR12_MASK) - 1 in
    if negb (Z.land raw PM_BIT =? 0) then h + 12 else h
  else bcd2dec (Z.land raw HOUR24_MASK).

(** The assignments [ds1302_get_time] makes to [*time] from [buf]. *)
Definition decode_time (buf : list Z) (time : tm) : tm :=
  {| tm_sec := bcd2dec (Z.land (nth 0 buf 0) SECONDS_MASK);
     tm_min := bcd2dec (nth 1 buf 0);
     tm_hour := decode_hour (nth 2 buf 0);
     tm_mday := bcd2dec (nth 3 buf 0);
     tm_mon := bcd2dec (nth 4 buf 0) - 1;
     tm_year := bcd2dec (nth 6 buf 0) + 2000;
     tm_wday := bcd2dec (nth 5 buf 0) - 1;
     tm_yday := tm_yday time;
     tm_isdst := tm_isdst time |}.

Definition ds1302_get_time (dev : option ds1302_t) (time : option tm)
  : M (option tm) :=
  match dev with
  | None => ret ESP_ERR_INVALID_ARG time
  | Some d =>
      match time with
      | None => ret ESP_ERR_INVALID_ARG time
      | Some t =>
          check (burst_read d CLOCK_BURST (repeat 0 7) 7) (fun _ => time)
                (fun buf => ret ESP_OK (Some (decode_time buf t)))
      end
  end.

(** The initialiser of [buf] in [ds1302_set_time]. *)
Definition encode_time (halted : bool) (time : tm) : list Z :=
  [ u8 (Z.lor (dec2bcd (u8 (tm_sec time))) (if halted then CH_BIT else 0));
    dec2bcd (u8 (tm_min time));
    dec2bcd (u8 (tm_hour time));
    dec2bcd (u8 (tm_mday time));
    dec2bcd (u8 (tm_mon time + 1));
    dec2bcd (u8 (tm_wday time + 1));
    dec2bcd (u8 (tm_year time - 2000));
    0 ].

Definition ds1302_set_time (dev : option ds1302_t) (time : option tm)
  : M unit :=
  match dev with
  | None => ret ESP_ERR_INVALID_ARG tt
  | Some d =>
      match time with
      | None => ret ESP_ERR_INVALID_ARG tt
      | Some t => burst_write d CLOCK_BURST (encode_time (ch d) t) 8
      end
  end.

Section ScratchMemory.

(** [DS1302_RAM_SIZE] comes from ds1302.h. *)
Variable DS1302_RAM_SIZE : Z.

Definition ds1302_read_sram (dev : option ds1302_t) (offset : Z)
           (buf : option (list Z)) (len : Z) : M (option (list Z)) :=
  match dev with
  | None => ret ESP_ERR_INVALID_ARG buf
  | Some d =>
      match buf with
      | None => ret ESP_ERR_INVALID_ARG buf
      | Some b =>
          if len =? 0 then ret ESP_ERR_INVALID_ARG buf
          else if negb (offset + len <=? DS1302_RAM_SIZE)
          then ret ESP_ERR_INVALID_ARG buf
          else check (burst_read d RAM_BURST b len) Some
                     (fun b' => ret ESP_OK (Some b'))
      end
  end.

Definition ds1302_write_sram (dev : option ds1302_t) (offset : Z)
           (buf : option (list Z)) (len : Z) : M unit :=
  match dev with
  | None => ret ESP_ERR_INVALID_ARG tt
  | Some d =>
      match buf with
      | None => ret ESP_ERR_INVALID_ARG tt
      | Some b =>
          if len =? 0 then ret ESP_ERR_INVALID_ARG tt
          else if negb (offset + len <=? DS1302_RAM_SIZE)
          then ret ESP_ERR_INVALID_ARG tt
          else burst_write d RAM_BURST b len
      end
  end.

End ScratchMemory.

(** ** Reading the wire

    The bytes a transaction drives onto the data line, recovered from the
    trace: the levels set on the I/O pin, grouped by eight, least
    significant bit first. *)

Definition io_levels (dev : ds1302_t) (tr : list event) : list Z :=
  flat_map (fun ev =>
              match ev with
              | EvSetLevel pin level =>
                  if pin =? io_pin dev then [level] else []
              | _ => []
              end) tr.

Fixpoint bytes_of_levels (l : list Z) : list Z :=
  match l with
  | b0 :: b1 :: b2 :: b3 :: b4 :: b5 :: b6 :: b7 :: rest =>
      (b0 + 2 * b1 + 4 * b2 + 8 * b3 + 16 * b4 + 32 * b5 + 64 * b6 + 128 * b7)
        :: bytes_of_levels rest
  | _ => []
  end.

Definition wire_bytes (dev : ds1302_t) (tr : list event) : list Z :=
  bytes_of_levels (io_levels dev tr).

(** The platform calls made between world [w] and a later world [w']. *)
Definition new_events (w w' : world) : list event :=
  skipn (length (trace w)) (trace w').

(** The levels a chip puts on the data line to send [b], in sampling order. *)
Definition bits_of_byte (b : Z) : list bool :=
  map (fun i => Z.testbit b (Z.of_nat i)) (seq 0 8).

Definition bits_of_bytes (l : list Z) : list bool :=
  flat_map bits_of_byte l.

Definition distinct_pins (dev : ds1302_t) : Prop :=
  ce_pin dev <> io_pin dev /\ io_pin dev <> sclk_pin dev /\
  sclk_pin dev <> ce_pin dev.

(** A fault-free world with the given pending input levels. *)
Definition quiet (levels : list bool) : world :=
  {| crit := O; gpio_rc := []; io_level := levels; trace := [] |}.

(** * Vocabulary of the properties *)

(** ** The critical section *)

Definition keeps_crit {A} (m : M A) : Prop :=
  forall w, crit (snd (m w)) = crit w.

(** A continuation running inside the region that leaves it exactly once,
    whatever happens. *)
Definition leaves_region {A} (m : M A) : Prop :=
  forall w, crit (snd (m w)) = Nat.pred (crit w).

(** ** Successful runs and their traces *)

(** [steps T k w w']: going from [w] to [w'] made exactly the platform
    calls [T] and sampled [k] input levels. *)
Definition steps (T : list event) (k : nat) (w w' : world) : Prop :=
  trace w' = trace w ++ T /\ io_level w' = skipn k (io_level w).

Definition chip_enable_trace (dev : ds1302_t) : list event :=
  [EvSetLevel (ce_pin dev) 1; EvDelay 4].

Definition prepare_trace (dev : ds1302_t) (mode : gpio_mode_t) : list event :=
  [EvSetDirection (io_pin dev) mode; EvSetLevel (sclk_pin dev) 0]
    ++ chip_enable_trace dev.

Definition toggle_clock_trace (dev : ds1302_t) : list event :=
  [EvSetLevel (sclk_pin dev) 1; EvDelay 1;
   EvSetLevel (sclk_pin dev) 0; EvDelay 1].

Fixpoint write_bits_trace (dev : ds1302_t) (b i : Z) (n : nat) : list event :=
  match n with
  | O => []
  | S n' =>
      EvSetLevel (io_pin dev) (Z.land (Z.shiftr b i) 1)
        :: toggle_clock_trace dev ++ write_bits_trace dev b (i + 1) n'
  end.

Definition write_byte_trace (dev : ds1302_t) (b : Z) : list event :=
  write_bits_trace dev b 0 8.

Fixpoint read_bits_trace (dev : ds1302_t) (n : nat) : list event :=
  match n with
  | O => []
  | S n' =>
      EvGetLevel (io_pin dev) :: toggle_clock_trace dev
        ++ read_bits_trace dev n'
  end.

(** The byte [read_bits] assembles from the pending input levels. *)
Fixpoint sample_bits (l : list bool) (i : Z) (n : nat) (b : Z) : Z :=
  match n with
  | O => b
  | S n' =>
      sample_bits (tl l) (i + 1) n'
                  (u8 (Z.lor b (Z.shiftl (Z.b2z (hd false l)) i)))
  end.

Definition read_register_trace (dev : ds1302_t) (reg : Z) : list event :=
  prepare_trace dev GPIO_MODE_OUTPUT
    ++ write_byte_trace dev (u8 (Z.lor reg 0x01))
    ++ prepare_trace dev GPIO_MODE_INPUT
    ++ read_bits_trace dev 8
    ++ [EvSetLevel (ce_pin dev) 0].

Definition write_register_trace (dev : ds1302_t) (reg val : Z) : list event :=
  prepare_trace dev GPIO_MODE_OUTPUT
    ++ write_byte_trace dev reg
    ++ write_byte_trace dev val
    ++ [EvSetLevel (ce_pin dev) 0].

Fixpoint burst_write_loop_trace (dev : ds1302_t) (src : list Z) (i n : nat)
  : list event :=
  match n with
  | O => [EvSetLevel (ce_pin dev) 0]
  | S n' =>
      write_byte_trace dev (nth i src 0)
        ++ burst_write_loop_trace dev src (S i) n'
  end.

Definition burst_write_trace (dev : ds1302_t) (reg : Z) (src : list Z)
           (len : Z) : list event :=
  prepare_trace dev GPIO_MODE_OUTPUT
    ++ write_byte_trace dev reg
    ++ burst_write_loop_trace dev src 0 (Z.to_nat len).

Fixpoint burst_read_loop_trace (dev : ds1302_t) (n : nat) : list event :=
  match n with
  | O => [EvSetLevel (ce_pin dev) 0]
  | S n' => read_bits_trace dev 8 ++ burst_read_loop_trace dev n'
  end.

Definition burst_read_trace (dev : ds1302_t) (reg : Z) (len : Z)
  : list event :=
  prepare_trace dev GPIO_MODE_OUTPUT
    ++ write_byte_trace dev (u8 (Z.lor reg 0x01))
    ++ prepare_trace dev GPIO_MODE_INPUT
    ++ burst_read_loop_trace dev (Z.to_nat len).

(** The buffer [burst_read] leaves behind after [n] more bytes. *)
Fixpoint sample_bytes (l : list bool) (dst : list Z) (i n : nat) : list Z :=
  match n with
  | O => dst
  | S n' =>
      sample_bytes (skipn 8 l) (store dst i (sample_bits l 0 8 0)) (S i) n'
  end.

(** ** Bytes, fault-free platforms and examples *)

Definition byte (b : Z) : Prop := 0 <= b < 256.

(** The levels [write_bits] drives for bits [i .. i+n-1] of [b]. *)
Fixpoint byte_levels (b i : Z) (n : nat) : list Z :=
  match n with
  | O => []
  | S n' => Z.land (Z.shiftr b i) 1 :: byte_levels b (i + 1) n'
  end.

(** On a platform where no GPIO call fails, [m] reports [ESP_OK]. *)
Definition quiet_ok {A} (m : M A) : Prop :=
  forall w, gpio_rc w = [] ->
            fst (fst (m w)) = ESP_OK /\ gpio_rc (snd (m w)) = [].

Definition example_dev : ds1302_t :=
  {| ce_pin := 5; io_pin := 6; sclk_pin := 7; ch := false |}.

Definition tm_zero : tm := mk_tm 0 0 0 0 0 0 0 0 0.

(** [ds1302_get_time] on a fault-free platform whose chip answers the
    clock burst with [regs]. *)
Definition read_back (d : ds1302_t) (regs : list Z) (t0 : tm)
  : esp_err_t * option tm :=
  fst (ds1302_get_time (Some d) (Some t0) (quiet (bits_of_bytes regs))).

(** The hour rule in the words of the specification: a BCD byte is worth
    ten times its high digit plus its low digit. *)
Definition bcd_value (x : Z) : Z := 10 * (x / 16) + x mod 16.

Definition hour_rule (raw : Z) : Z :=
  if Z.testbit raw 7
  then bcd_value (raw mod 32) - 1 + (if Z.testbit raw 5 then 12 else 0)
  else bcd_value (raw mod 64).

Definition levels_of_bytes (bs : list Z) : list Z :=
  flat_map (fun b => byte_levels b 0 8) bs.

(** The bytes [burst_write]'s loop fetches through [src]. *)
Definition fetched (src : list Z) (i n : nat) : list Z :=
  map (fun j => nth j src 0) (seq i n).

(** The command bytes of a register read and of a register write on a
    fault-free platform. *)
Definition read_command (d : ds1302_t) (reg : Z) : Z :=
  hd 0 (wire_bytes d (trace (snd (read_register d reg 0 (quiet []))))).

Definition write_command (d : ds1302_t) (reg val : Z) : Z :=
  hd 0 (wire_bytes d (trace (snd (write_register d reg val (quiet []))))).

(** The byte [update_register] writes back on a fault-free platform whose
    chip answers the read with [cur]. *)
Definition written_back (d : ds1302_t) (reg mask val cur : Z) : Z :=
  nth 2 (wire_bytes d
           (trace (snd (update_register d reg mask val
                                        (quiet (bits_of_byte cur)))))) 0.

(** The fields the chip stores, as the specification lists their ranges;
    the month and weekday ranges cover both the 1-based values of the
    specification and the 0-based ones of [struct tm]. *)
Definition native_ranges (r : tm) : Prop :=
  0 <= tm_sec r <= 59 /\ 0 <= tm_min r <= 59 /\ 0 <= tm_hour r <= 23
  /\ 1 <= tm_mday r <= 31 /\ 0 <= tm_mon r <= 12 /\ 0 <= tm_wday r <= 7
  /\ 2000 <= tm_year r <= 2099.

(** [r] with the two fields the driver never touches taken from [t0]. *)
Definition chip_fields (r t0 : tm) : tm :=
  {| tm_sec := tm_sec r; tm_min := tm_min r; tm_hour := tm_hour r;
     tm_mday := tm_mday r; tm_mon := tm_mon r; tm_year := tm_year r;
     tm_wday := tm_wday r; tm_yday := tm_yday t0; tm_isdst := tm_isdst t0 |}.

Definition example_time : tm := mk_tm 59 58 23 31 12 2099 7 364 0.

(** ** Scripts: a transaction on every path *)

(** The platform calls that return an [esp_err_t]. *)
Definition fallible (ev : event) : bool :=
  match ev with
  | EvConfig _ _ | EvSetDirection _ _ | EvSetLevel _ _ => true
  | EvGetLevel _ | EvDelay _ => false
  end.

Record outcome := mk_outcome {
  out_err : esp_err_t;         (* the code returned *)
  out_done : list event;       (* the platform calls made *)
  out_rc : list esp_err_t      (* the pending GPIO results left over *)
}.

(** Replay the script [T] against the pending GPIO results [rc]: each
    fallible call takes the next result, and the first result that is not
    [ESP_OK] ends the replay and is returned. *)
Fixpoint play (T : list event) (rc : list esp_err_t) : outcome :=
  match T with
  | [] => mk_outcome ESP_OK [] rc
  | ev :: T' =>
      if fallible ev then
        if is_ok (hd ESP_OK rc) then
          let o := play T' (tl rc) in
          mk_outcome (out_err o) (ev :: out_done o) (out_rc o)
        else mk_outcome (hd ESP_OK rc) [ev] (tl rc)
      else
        let o := play T' rc in
        mk_outcome (out_err o) (ev :: out_done o) (out_rc o)
  end.

(** Run from [w], [m] behaves as the replay of [T]. *)
Definition plays_at {A} (T : list event) (m : M A) (w : world) : Prop :=
  fst (fst (m w)) = out_err (play T (gpio_rc w))
  /\ trace (snd (m w)) = trace w ++ out_done (play T (gpio_rc w))
  /\ gpio_rc (snd (m w)) = out_rc (play T (gpio_rc w)).

Definition plays {A} (T : list event) (m : M A) : Prop :=
  forall w, plays_at T m w.




(** The codes a public operation may report in world [w]: success, the
    argument error, or a code the platform has pending. *)
Definition reported_code (w : world) (e : esp_err_t) : Prop :=
  e = ESP_OK \/ e = ESP_ERR_INVALID_ARG \/ In e (gpio_rc w).

(** [m] run from [w] is the replay of some script. *)
Definition scripted_at {A} (m : M A) (w : world) : Prop :=
  exists T, plays_at T m w.

(** A world with the given pending GPIO results and input levels. *)
Definition faulty (rc : list esp_err_t) (levels : list bool) : world :=
  {| crit := O; gpio_rc := rc; io_level := levels; trace := [] |}.

(** What a receiver samples from the levels driven on the data line. *)
Definition sampled (levels : list Z) : list bool :=
  map (fun l => negb (l =? 0)) levels.

(** A byte holding two decimal digits. *)
Definition valid_bcd (b : Z) : Prop :=
  byte b /\ b / 16 <= 9 /\ b mod 16 <= 9.

(** A two-digit BCD byte worth between [lo] and [hi]. *)
Definition bcd_between (lo hi b : Z) : Prop :=
  valid_bcd b /\ lo <= bcd_value b <= hi.

Definition bcd_betweenb (lo hi b : Z) : bool :=
  (0 <=? b) && (b <? 256) && (b / 16 <=? 9) && (b mod 16 <=? 9)
  && (lo <=? bcd_value b) && (bcd_value b <=? hi).

(** An hour register of the chip: 1 to 12 in 12-hour mode (top bit set),
    0 to 23 in 24-hour mode. *)
Definition valid_hour_register (h : Z) : Prop :=
  byte h
  /\ if Z.testbit h 7
     then bcd_between 1 12 (Z.land h HOUR12_MASK)
     else bcd_between 0 23 (Z.land h HOUR24_MASK).

(** The seven time registers of the clock burst holding calendar values
    the chip can count: seconds and minutes 0-59, hour, date 1-31, month
    1-12, day of week 1-7, year 0-99. *)
Definition valid_clock_registers (regs : list Z) : Prop :=
  length regs = 7%nat
  /\ byte (nth 0 regs 0)
  /\ bcd_between 0 59 (Z.land (nth 0 regs 0) SECONDS_MASK)
  /\ bcd_between 0 59 (nth 1 regs 0)
  /\ valid_hour_register (nth 2 regs 0)
  /\ bcd_between 1 31 (nth 3 regs 0)
  /\ bcd_between 1 12 (nth 4 regs 0)
  /\ bcd_between 1 7 (nth 5 regs 0)
  /\ bcd_between 0 99 (nth 6 regs 0).

(** The ranges of [struct tm] the driver works in: months and weekdays
    count from 0, the year is the calendar year. *)
Definition tm_in_range (t : tm) : Prop :=
  0 <= tm_sec t <= 59 /\ 0 <= tm_min t <= 59 /\ 0 <= tm_hour t <= 23
  /\ 1 <= tm_mday t <= 31 /\ 0 <= tm_mon t <= 11 /\ 0 <= tm_wday t <= 6
  /\ 2000 <= tm_year t <= 2099.

(** * Properties *)

(** ** Checking a property of every byte by enumeration *)

Lemma forallb_range (P : Z -> bool) (n : nat) :
  forallb P (map Z.of_nat (seq 0 n)) = true ->
  forall z, 0 <= z < Z.of_nat n -> P z = true.
Proof.
  intros H z Hz.
  rewrite forallb_forall in H. apply H.
  apply in_map_iff. exists (Z.to_nat z). split; [lia|].
  apply in_seq. lia.
Qed.

Lemma bcd_roundtrip_byte (d : Z) :
  0 <= d <= 99 -> bcd2dec (dec2bcd d) = d.
Proof.
  intros Hd.
  apply Z.eqb_eq.
  apply (forallb_range (fun z => bcd2dec (dec2bcd z) =? z) 100);
    [vm_compute; reflexivity | lia].
Qed.

Lemma u8_small (z : Z) : 0 <= z < 256 -> u8 z = z.
Proof. intros H. unfold u8. apply Z.mod_small. exact H. Qed.

(** ** The critical section on every path *)

Lemma keeps_crit_ret {A} e (a : A) : keeps_crit (ret e a).
Proof. intros w. reflexivity. Qed.

Lemma keeps_crit_platform_call ev : keeps_crit (platform_call ev).
Proof. intros w. reflexivity. Qed.

Lemma keeps_crit_check {A B} (x : M A) (out : A -> B) (k : A -> M B) :
  keeps_crit x -> (forall a, keeps_crit (k a)) -> keeps_crit (check x out k).
Proof.
  intros Hx Hk w. unfold check.
  specialize (Hx w). destruct (x w) as [[e a] w1]. simpl in Hx.
  destruct (is_ok e); simpl; [rewrite Hk|]; exact Hx.
Qed.

Lemma keeps_crit_delay {B} us (k : M B) :
  keeps_crit k -> keeps_crit (DO ets_delay_us us ;; k).
Proof. intros Hk w. unfold void. rewrite Hk. reflexivity. Qed.

Lemma leaves_region_check_mux {A B} (x : M A) (out : A -> B) (k : A -> M B) :
  keeps_crit x -> (forall a, leaves_region (k a)) ->
  leaves_region (check_mux x out k).
Proof.
  intros Hx Hk w. unfold check_mux.
  specialize (Hx w). destruct (x w) as [[e a] w1]. simpl in Hx.
  destruct (is_ok e); simpl; [rewrite Hk|]; rewrite Hx; reflexivity.
Qed.

Lemma leaves_region_exit {B} (k : M B) :
  keeps_crit k -> leaves_region (DO PORT_EXIT_CRITICAL ;; k).
Proof. intros Hk w. unfold void. rewrite Hk. reflexivity. Qed.

Lemma enter_then_leave {A} (m : M A) :
  leaves_region m -> keeps_crit (DO PORT_ENTER_CRITICAL ;; m).
Proof. intros Hm w. unfold void. rewrite Hm. reflexivity. Qed.

Create HintDb crit discriminated.
#[local] Hint Resolve keeps_crit_ret keeps_crit_platform_call keeps_crit_check
  keeps_crit_delay leaves_region_check_mux leaves_region_exit
  enter_then_leave : crit.

Lemma keeps_crit_gpio_set_level pin l : keeps_crit (gpio_set_level pin l).
Proof. unfold gpio_set_level. auto with crit. Qed.

Lemma keeps_crit_gpio_set_direction pin m :
  keeps_crit (gpio_set_direction pin m).
Proof. unfold gpio_set_direction. auto with crit. Qed.

#[local] Hint Resolve keeps_crit_gpio_set_level
  keeps_crit_gpio_set_direction : crit.

Lemma keeps_crit_chip_enable dev : keeps_crit (chip_enable dev).
Proof. unfold chip_enable. auto with crit. Qed.

Lemma keeps_crit_chip_disable dev : keeps_crit (chip_disable dev).
Proof. unfold chip_disable. auto with crit. Qed.

#[local] Hint Resolve keeps_crit_chip_enable keeps_crit_chip_disable : crit.

Lemma keeps_crit_prepare dev mode : keeps_crit (prepare dev mode).
Proof. unfold prepare. auto with crit. Qed.

Lemma keeps_crit_toggle_clock dev : keeps_crit (toggle_clock dev).
Proof. unfold toggle_clock. auto 7 with crit. Qed.

#[local] Hint Resolve keeps_crit_prepare keeps_crit_toggle_clock : crit.

Lemma keeps_crit_write_bits dev b n : forall i, keeps_crit (write_bits dev b i n).
Proof.
  induction n as [|n IH]; intros i; simpl; auto with crit.
Qed.

Lemma keeps_crit_write_byte dev b : keeps_crit (write_byte dev b).
Proof. apply keeps_crit_write_bits. Qed.

Lemma keeps_crit_read_bits dev n : forall i b, keeps_crit (read_bits dev i n b).
Proof.
  induction n as [|n IH]; intros i b; simpl; auto with crit.
  intros w.
  rewrite (keeps_crit_check (toggle_clock dev) _ _); auto with crit.
Qed.

Lemma keeps_crit_read_byte dev : keeps_crit (read_byte dev).
Proof. apply keeps_crit_read_bits. Qed.

#[local] Hint Resolve keeps_crit_write_byte keeps_crit_read_byte : crit.

Lemma leaves_region_burst_read_loop dev n :
  forall dst i, leaves_region (burst_read_loop dev dst i n).
Proof.
  induction n as [|n IH]; intros dst i; simpl; auto with crit.
Qed.

Lemma leaves_region_burst_write_loop dev src n :
  forall i, leaves_region (burst_write_loop dev src i n).
Proof.
  induction n as [|n IH]; intros i; simpl; auto with crit.
Qed.

#[local] Hint Resolve leaves_region_burst_read_loop
  leaves_region_burst_write_loop : crit.

Lemma read_register_balanced dev reg val : keeps_crit (read_register dev reg val).
Proof. unfold read_register. auto 10 with crit. Qed.

Lemma burst_read_balanced dev reg dst len :
  keeps_crit (burst_read dev reg dst len).
Proof. unfold burst_read. auto 10 with crit. Qed.

Lemma burst_write_balanced dev reg src len :
  keeps_crit (burst_write dev reg src len).
Proof. unfold burst_write. auto 10 with crit. Qed.

(** ** What a successful run does to the world *)

Lemma steps_refl w : steps [] 0 w w.
Proof. split; [symmetry; apply app_nil_r | reflexivity]. Qed.

Lemma steps_trans T1 T2 k1 k2 w w1 w2 :
  steps T1 k1 w w1 -> steps T2 k2 w1 w2 ->
  steps (T1 ++ T2) (k1 + k2) w w2.
Proof.
  intros [H1 H1'] [H2 H2']. split.
  - rewrite H2, H1, app_assoc. reflexivity.
  - rewrite H2', H1', skipn_skipn, Nat.add_comm. reflexivity.
Qed.

Lemma steps_new_events T k w w' : steps T k w w' -> new_events w w' = T.
Proof.
  intros [H _]. unfold new_events. rewrite H.
  rewrite skipn_app, skipn_all, Nat.sub_diag. reflexivity.
Qed.

Lemma check_ok {A B} (x : M A) (out : A -> B) (k : A -> M B) w b w' :
  check x out k w = (ESP_OK, b, w') ->
  exists a w1, x w = (ESP_OK, a, w1) /\ k a w1 = (ESP_OK, b, w').
Proof.
  unfold check. destruct (x w) as [[e a] w1]. unfold is_ok.
  destruct (Z.eqb_spec e ESP_OK) as [->|Hne]; intros H.
  - exists a, w1. split; [reflexivity | exact H].
  - congruence.
Qed.

Lemma check_mux_ok {A B} (x : M A) (out : A -> B) (k : A -> M B) w b w' :
  check_mux x out k w = (ESP_OK, b, w') ->
  exists a w1, x w = (ESP_OK, a, w1) /\ k a w1 = (ESP_OK, b, w').
Proof.
  unfold check_mux. destruct (x w) as [[e a] w1]. unfold is_ok.
  destruct (Z.eqb_spec e ESP_OK) as [->|Hne]; intros H.
  - exists a, w1. split; [reflexivity | exact H].
  - congruence.
Qed.

Lemma platform_call_steps ev w e a w' :
  platform_call ev w = (e, a, w') -> steps [ev] 0 w w'.
Proof. unfold platform_call. intros H. inversion H. split; reflexivity. Qed.

Lemma delay_steps us w : steps [EvDelay us] 0 w (ets_delay_us us w).
Proof. split; reflexivity. Qed.

Lemma enter_steps w : steps [] 0 w (PORT_ENTER_CRITICAL w).
Proof. split; [symmetry; apply app_nil_r | reflexivity]. Qed.

Lemma exit_steps w : steps [] 0 w (PORT_EXIT_CRITICAL w).
Proof. split; [symmetry; apply app_nil_r | reflexivity]. Qed.

Lemma get_level_steps pin w :
  steps [EvGetLevel pin] 1 w (snd (gpio_get_level pin w)).
Proof. split; reflexivity. Qed.

(** Peel one [CHECK] or [CHECK_MUX] off a successful run. *)
Ltac peel H :=
  let a := fresh "a" in
  let w := fresh "w" in
  let Hs := fresh "Hs" in
  first [ apply check_ok in H as (a & w & Hs & H)
        | apply check_mux_ok in H as (a & w & Hs & H) ].

(** Chain [steps] facts along a run from [w0]. *)
Ltac chain :=
  repeat match goal with
    | H1 : steps _ _ ?w ?w1, H2 : steps _ _ ?w1 ?w2 |- _ =>
        pose proof (steps_trans _ _ _ _ _ _ _ H1 H2); clear H1 H2
    end.

Lemma chip_enable_ok dev w a w' :
  chip_enable dev w = (ESP_OK, a, w') -> steps (chip_enable_trace dev) 0 w w'.
Proof.
  unfold chip_enable. intros H. peel H.
  apply platform_call_steps in Hs.
  unfold void, ret in H. inversion H; subst.
  pose proof (delay_steps 4 w0). chain. assumption.
Qed.

Lemma chip_disable_steps dev w e a w' :
  chip_disable dev w = (e, a, w') -> steps [EvSetLevel (ce_pin dev) 0] 0 w w'.
Proof. apply platform_call_steps. Qed.

Lemma prepare_ok dev mode w a w' :
  prepare dev mode w = (ESP_OK, a, w') -> steps (prepare_trace dev mode) 0 w w'.
Proof.
  unfold prepare. intros H. peel H. peel H.
  apply platform_call_steps in Hs, Hs0. apply chip_enable_ok in H.
  chain. assumption.
Qed.

Lemma toggle_clock_ok dev w a w' :
  toggle_clock dev w = (ESP_OK, a, w') -> steps (toggle_clock_trace dev) 0 w w'.
Proof.
  unfold toggle_clock. intros H. peel H. unfold void at 1 in H. peel H.
  apply platform_call_steps in Hs, Hs0.
  unfold void, ret in H. inversion H; subst.
  pose proof (delay_steps 1 w0). pose proof (delay_steps 1 w1).
  chain. assumption.
Qed.

Lemma write_bits_ok dev b n : forall i w a w',
  write_bits dev b i n w = (ESP_OK, a, w') ->
  steps (write_bits_trace dev b i n) 0 w w'.
Proof.
  induction n as [|n IH]; intros i w a w' H; simpl in H.
  - inversion H; subst. apply steps_refl.
  - peel H. peel H.
    apply platform_call_steps in Hs. apply toggle_clock_ok in Hs0.
    apply IH in H. chain. assumption.
Qed.

Lemma write_byte_ok dev b w a w' :
  write_byte dev b w = (ESP_OK, a, w') -> steps (write_byte_trace dev b) 0 w w'.
Proof. apply write_bits_ok. Qed.

Lemma read_bits_ok dev n : forall i b w v w',
  read_bits dev i n b w = (ESP_OK, v, w') ->
  steps (read_bits_trace dev n) n w w' /\ v = sample_bits (io_level w) i n b.
Proof.
  induction n as [|n IH]; intros i b w v w' H; simpl in H.
  - inversion H; subst. split; [apply steps_refl | reflexivity].
  - peel H. apply toggle_clock_ok in Hs. apply IH in H as [H ->].
    pose proof (get_level_steps (io_pin dev) w) as Hg.
    split.
    + chain. assumption.
    + destruct Hs as [_ Hio]. rewrite Hio. reflexivity.
Qed.

Lemma read_byte_ok dev w v w' :
  read_byte dev w = (ESP_OK, v, w') ->
  steps (read_bits_trace dev 8) 8 w w' /\ v = sample_bits (io_level w) 0 8 0.
Proof. apply read_bits_ok. Qed.

Lemma crit_of_run {A} (m : M A) w e a w' :
  keeps_crit m -> m w = (e, a, w') -> crit w' = crit w.
Proof. intros Hk H. specialize (Hk w). rewrite H in Hk. exact Hk. Qed.

Lemma read_register_ok dev reg val w v w' :
  read_register dev reg val w = (ESP_OK, v, w') ->
  steps (read_register_trace dev reg) 8 w w'
  /\ v = sample_bits (io_level w) 0 8 0.
Proof.
  unfold read_register, void at 1. intros H.
  pose proof (enter_steps w) as He.
  do 4 peel H. unfold void at 1 in H. peel H.
  unfold ret in H. inversion H; subst. clear H.
  apply prepare_ok in Hs, Hs1. apply write_byte_ok in Hs0.
  apply read_byte_ok in Hs2 as [Hs2 Hv]. apply chip_disable_steps in Hs3.
  pose proof (exit_steps w3) as Hx.
  assert (Hio : io_level w2 = io_level w).
  { destruct He as [_ E0], Hs as [_ E1], Hs0 as [_ E2], Hs1 as [_ E3].
    rewrite E3, E2, E1, E0. reflexivity. }
  split; [chain; assumption | rewrite Hv, Hio; reflexivity].
Qed.

Lemma write_register_ok dev reg val w a w' :
  write_register dev reg val w = (ESP_OK, a, w') ->
  steps (write_register_trace dev reg val) 0 w w'
  /\ crit w' = S (S (crit w)).
Proof.
  unfold write_register, void at 1. intros H.
  pose proof (enter_steps w) as He.
  do 3 peel H. unfold void in H.
  pose proof (crit_of_run _ _ _ _ _ (keeps_crit_prepare _ _) Hs) as C0.
  pose proof (crit_of_run _ _ _ _ _ (keeps_crit_write_byte _ _) Hs0) as C1.
  pose proof (crit_of_run _ _ _ _ _ (keeps_crit_write_byte _ _) Hs1) as C2.
  pose proof (crit_of_run _ _ _ _ _ (keeps_crit_chip_disable _) H) as C3.
  apply prepare_ok in Hs. apply write_byte_ok in Hs0, Hs1.
  apply chip_disable_steps in H.
  pose proof (enter_steps w2) as He2.
  split; [chain; assumption |].
  rewrite C3. simpl. rewrite C2, C1, C0. reflexivity.
Qed.

Lemma burst_write_loop_ok dev src n : forall i w a w',
  burst_write_loop dev src i n w = (ESP_OK, a, w') ->
  steps (burst_write_loop_trace dev src i n) 0 w w'.
Proof.
  induction n as [|n IH]; intros i w a w' H; simpl in H.
  - unfold void in H. apply chip_disable_steps in H.
    pose proof (exit_steps w). chain. assumption.
  - peel H. apply write_byte_ok in Hs. apply IH in H. chain. assumption.
Qed.

Lemma burst_write_ok dev reg src len w a w' :
  burst_write dev reg src len w = (ESP_OK, a, w') ->
  steps (burst_write_trace dev reg src len) 0 w w'.
Proof.
  unfold burst_write, void at 1. intros H.
  pose proof (enter_steps w) as He.
  do 2 peel H.
  apply prepare_ok in Hs. apply write_byte_ok in Hs0.
  apply burst_write_loop_ok in H. chain. assumption.
Qed.

Lemma burst_read_loop_ok dev n : forall dst i w dst' w',
  burst_read_loop dev dst i n w = (ESP_OK, dst', w') ->
  steps (burst_read_loop_trace dev n) (8 * n) w w'
  /\ dst' = sample_bytes (io_level w) dst i n.
Proof.
  induction n as [|n IH]; intros dst i w dst' w' H; simpl in H.
  - unfold void in H. peel H. unfold ret in H. inversion H; subst.
    apply chip_disable_steps in Hs.
    pose proof (exit_steps w). split; [chain; assumption | reflexivity].
  - peel H. apply read_byte_ok in Hs as [Hs ->]. apply IH in H as [H ->].
    split.
    + chain. replace (8 * S n)%nat with (8 + 8 * n)%nat by lia. assumption.
    + destruct Hs as [_ ->]. reflexivity.
Qed.

Lemma burst_read_ok dev reg dst len w dst' w' :
  burst_read dev reg dst len w = (ESP_OK, dst', w') ->
  steps (burst_read_trace dev reg len) (8 * Z.to_nat len) w w'
  /\ dst' = sample_bytes (io_level w) dst 0 (Z.to_nat len).
Proof.
  unfold burst_read, void at 1. intros H.
  pose proof (enter_steps w) as He.
  do 3 peel H.
  apply prepare_ok in Hs, Hs1. apply write_byte_ok in Hs0.
  apply burst_read_loop_ok in H as [H ->].
  assert (Hio : io_level w2 = io_level w).
  { destruct He as [_ E0], Hs as [_ E1], Hs0 as [_ E2], Hs1 as [_ E3].
    rewrite E3, E2, E1, E0. reflexivity. }
  split; [chain; assumption | rewrite Hio; reflexivity].
Qed.

Lemma update_register_ok dev reg mask val w a w' :
  update_register dev reg mask val w = (ESP_OK, a, w') ->
  let r := sample_bits (io_level w) 0 8 0 in
  steps (read_register_trace dev reg
           ++ write_register_trace dev reg (u8 (Z.lor (Z.land r mask) val)))
        8 w w'.
Proof.
  unfold update_register. intros H. peel H.
  apply read_register_ok in Hs as [Hs ->].
  apply write_register_ok in H as [H _].
  simpl. chain. assumption.
Qed.

(** ** Bytes on the wire *)

Lemma byte_u8 z : byte (u8 z).
Proof. unfold byte, u8. apply Z.mod_pos_bound. lia. Qed.

Lemma byte_dec2bcd z : byte (dec2bcd z).
Proof. apply byte_u8. Qed.

Lemma io_levels_app dev t1 t2 :
  io_levels dev (t1 ++ t2) = io_levels dev t1 ++ io_levels dev t2.
Proof. unfold io_levels. apply flat_map_app. Qed.

Section DistinctPins.

Variable dev : ds1302_t.
Hypothesis Hpins : distinct_pins dev.

Lemma sclk_not_io : (sclk_pin dev =? io_pin dev) = false.
Proof. apply Z.eqb_neq. destruct Hpins as (_ & H & _). congruence. Qed.

Lemma ce_not_io : (ce_pin dev =? io_pin dev) = false.
Proof. apply Z.eqb_neq. destruct Hpins as (H & _). exact H. Qed.

Lemma io_levels_prepare mode : io_levels dev (prepare_trace dev mode) = [].
Proof. simpl. rewrite sclk_not_io, ce_not_io. reflexivity. Qed.

Lemma io_levels_toggle_clock : io_levels dev (toggle_clock_trace dev) = [].
Proof. simpl. rewrite sclk_not_io. reflexivity. Qed.

Lemma io_levels_chip_disable :
  io_levels dev [EvSetLevel (ce_pin dev) 0] = [].
Proof. simpl. rewrite ce_not_io. reflexivity. Qed.

Lemma io_levels_write_bits b n : forall i,
  io_levels dev (write_bits_trace dev b i n) = byte_levels b i n.
Proof.
  induction n as [|n IH]; intros i; [reflexivity|].
  cbn [write_bits_trace byte_levels].
  change (?e :: ?t ++ ?r) with ([e] ++ t ++ r).
  rewrite !io_levels_app, io_levels_toggle_clock, IH.
  simpl. rewrite Z.eqb_refl. reflexivity.
Qed.

Lemma io_levels_read_bits n : io_levels dev (read_bits_trace dev n) = [].
Proof.
  induction n as [|n IH]; [reflexivity|].
  cbn [read_bits_trace].
  change (?e :: ?t ++ ?r) with ([e] ++ t ++ r).
  rewrite !io_levels_app, io_levels_toggle_clock, IH. reflexivity.
Qed.

Lemma io_levels_write_byte b :
  io_levels dev (write_byte_trace dev b) = byte_levels b 0 8.
Proof. apply io_levels_write_bits. Qed.

End DistinctPins.

Lemma byte_levels_sum (b : Z) :
  byte b ->
  Z.land (Z.shiftr b 0) 1 + 2 * Z.land (Z.shiftr b 1) 1
  + 4 * Z.land (Z.shiftr b 2) 1 + 8 * Z.land (Z.shiftr b 3) 1
  + 16 * Z.land (Z.shiftr b 4) 1 + 32 * Z.land (Z.shiftr b 5) 1
  + 64 * Z.land (Z.shiftr b 6) 1 + 128 * Z.land (Z.shiftr b 7) 1 = b.
Proof.
  intros Hb. apply Z.eqb_eq.
  apply (forallb_range
           (fun b =>
              Z.land (Z.shiftr b 0) 1 + 2 * Z.land (Z.shiftr b 1) 1
              + 4 * Z.land (Z.shiftr b 2) 1 + 8 * Z.land (Z.shiftr b 3) 1
              + 16 * Z.land (Z.shiftr b 4) 1 + 32 * Z.land (Z.shiftr b 5) 1
              + 64 * Z.land (Z.shiftr b 6) 1 + 128 * Z.land (Z.shiftr b 7) 1
              =? b) 256);
    [vm_compute; reflexivity | exact Hb].
Qed.

Lemma bytes_of_levels_cons (b : Z) (l : list Z) :
  byte b ->
  bytes_of_levels (byte_levels b 0 8 ++ l) = b :: bytes_of_levels l.
Proof.
  intros Hb. cbn [byte_levels app bytes_of_levels Z.add Pos.add Pos.succ].
  f_equal. apply byte_levels_sum. exact Hb.
Qed.

Lemma bytes_of_levels_one (b : Z) :
  byte b -> bytes_of_levels (byte_levels b 0 8) = [b].
Proof.
  intros Hb. rewrite <- (app_nil_r (byte_levels b 0 8)).
  rewrite bytes_of_levels_cons by exact Hb. reflexivity.
Qed.

(** ** Bytes sampled from the wire *)

Lemma bits_of_byte_cons (b : Z) :
  bits_of_byte b =
  [Z.testbit b 0; Z.testbit b 1; Z.testbit b 2; Z.testbit b 3;
   Z.testbit b 4; Z.testbit b 5; Z.testbit b 6; Z.testbit b 7].
Proof. reflexivity. Qed.

Lemma sample_bits_byte (b : Z) (rest : list bool) :
  byte b -> sample_bits (bits_of_byte b ++ rest) 0 8 0 = b.
Proof.
  intros Hb. rewrite bits_of_byte_cons.
  cbn [app sample_bits hd tl].
  change (sample_bits (bits_of_byte b) 0 8 0 = b).
  apply Z.eqb_eq.
  apply (forallb_range (fun b => sample_bits (bits_of_byte b) 0 8 0 =? b) 256);
    [vm_compute; reflexivity | exact Hb].
Qed.

Lemma skipn_bits_of_byte (b : Z) (rest : list bool) :
  skipn 8 (bits_of_byte b ++ rest) = rest.
Proof. reflexivity. Qed.

Lemma store_length l : forall i v, length (store l i v) = length l.
Proof.
  induction l as [|h t IH]; intros [|i] v; simpl; auto.
Qed.

Lemma store_firstn l : forall i v,
  (i < length l)%nat -> firstn (S i) (store l i v) = firstn i l ++ [v].
Proof.
  induction l as [|h t IH]; intros [|i] v Hi; simpl in *; try lia.
  - reflexivity.
  - f_equal. apply IH. lia.
Qed.

Lemma store_skipn l : forall i k v,
  (i < k)%nat -> skipn k (store l i v) = skipn k l.
Proof.
  induction l as [|h t IH]; intros i k v Hik.
  - destruct i; reflexivity.
  - destruct k as [|k]; [lia|]. destruct i as [|i]; simpl.
    + reflexivity.
    + apply IH. lia.
Qed.

Lemma sample_bytes_spec (bs : list Z) : forall rest dst i,
  Forall byte bs -> (i + length bs <= length dst)%nat ->
  sample_bytes (bits_of_bytes bs ++ rest) dst i (length bs)
  = firstn i dst ++ bs ++ skipn (i + length bs) dst.
Proof.
  induction bs as [|b bs IH]; intros rest dst i Hbs Hlen.
  - simpl. rewrite Nat.add_0_r. symmetry. apply firstn_skipn.
  - inversion Hbs as [|? ? Hb Hbs']; subst. simpl in Hlen.
    cbn [length sample_bytes bits_of_bytes flat_map].
    fold (bits_of_bytes bs). rewrite <- app_assoc.
    rewrite sample_bits_byte by exact Hb.
    rewrite skipn_bits_of_byte.
    rewrite IH by (rewrite ?store_length; auto; lia).
    rewrite store_firstn by lia.
    rewrite store_skipn by lia.
    rewrite <- app_assoc. simpl.
    replace (i + S (length bs))%nat with (S (i + length bs)) by lia.
    reflexivity.
Qed.

(** ** A platform without faults

    When no GPIO call fails, every transaction runs to its end and
    reports [ESP_OK]. *)

Lemma quiet_ok_ret {A} (a : A) : quiet_ok (ret ESP_OK a).
Proof. intros w H. split; [reflexivity | exact H]. Qed.

Lemma quiet_ok_platform_call ev : quiet_ok (platform_call ev).
Proof. intros w H. unfold platform_call. simpl. rewrite H. split; reflexivity. Qed.

Lemma quiet_ok_check {A B} (x : M A) (out : A -> B) (k : A -> M B) :
  quiet_ok x -> (forall a, quiet_ok (k a)) -> quiet_ok (check x out k).
Proof.
  intros Hx Hk w H. unfold check.
  destruct (Hx w H) as [He Hw]. destruct (x w) as [[e a] w1].
  simpl in He, Hw. subst e. simpl. apply Hk. exact Hw.
Qed.

Lemma quiet_ok_check_mux {A B} (x : M A) (out : A -> B) (k : A -> M B) :
  quiet_ok x -> (forall a, quiet_ok (k a)) -> quiet_ok (check_mux x out k).
Proof.
  intros Hx Hk w H. unfold check_mux.
  destruct (Hx w H) as [He Hw]. destruct (x w) as [[e a] w1].
  simpl in He, Hw. subst e. simpl. apply Hk. exact Hw.
Qed.

Lemma quiet_ok_delay {B} us (k : M B) :
  quiet_ok k -> quiet_ok (DO ets_delay_us us ;; k).
Proof. intros Hk w H. unfold void. apply Hk. exact H. Qed.

Lemma quiet_ok_enter {B} (k : M B) :
  quiet_ok k -> quiet_ok (DO PORT_ENTER_CRITICAL ;; k).
Proof. intros Hk w H. unfold void. apply Hk. exact H. Qed.

Lemma quiet_ok_exit {B} (k : M B) :
  quiet_ok k -> quiet_ok (DO PORT_EXIT_CRITICAL ;; k).
Proof. intros Hk w H. unfold void. apply Hk. exact H. Qed.

Create HintDb quiet discriminated.
#[local] Hint Resolve quiet_ok_ret quiet_ok_platform_call quiet_ok_check
  quiet_ok_check_mux quiet_ok_delay quiet_ok_enter quiet_ok_exit : quiet.

Lemma quiet_ok_gpio_set_level pin l : quiet_ok (gpio_set_level pin l).
Proof. unfold gpio_set_level. auto with quiet. Qed.

Lemma quiet_ok_gpio_set_direction pin m : quiet_ok (gpio_set_direction pin m).
Proof. unfold gpio_set_direction. auto with quiet. Qed.

Lemma quiet_ok_gpio_config mask m : quiet_ok (gpio_config mask m).
Proof. unfold gpio_config. auto with quiet. Qed.

#[local] Hint Resolve quiet_ok_gpio_set_level quiet_ok_gpio_set_direction
  quiet_ok_gpio_config : quiet.

Lemma quiet_ok_chip_enable dev : quiet_ok (chip_enable dev).
Proof. unfold chip_enable. auto with quiet. Qed.

Lemma quiet_ok_chip_disable dev : quiet_ok (chip_disable dev).
Proof. unfold chip_disable. auto with quiet. Qed.

#[local] Hint Resolve quiet_ok_chip_enable quiet_ok_chip_disable : quiet.

Lemma quiet_ok_prepare dev mode : quiet_ok (prepare dev mode).
Proof. unfold prepare. auto with quiet. Qed.

Lemma quiet_ok_toggle_clock dev : quiet_ok (toggle_clock dev).
Proof. unfold toggle_clock. auto 7 with quiet. Qed.

#[local] Hint Resolve quiet_ok_prepare quiet_ok_toggle_clock : quiet.

Lemma quiet_ok_write_bits dev b n : forall i, quiet_ok (write_bits dev b i n).
Proof. induction n as [|n IH]; intros i; simpl; auto with quiet. Qed.

Lemma quiet_ok_write_byte dev b : quiet_ok (write_byte dev b).
Proof. apply quiet_ok_write_bits. Qed.

Lemma quiet_ok_read_bits dev n : forall i b, quiet_ok (read_bits dev i n b).
Proof.
  induction n as [|n IH]; intros i b; simpl; auto with quiet.
  intros w H.
  apply (quiet_ok_check (toggle_clock dev)); auto with quiet.
Qed.

Lemma quiet_ok_read_byte dev : quiet_ok (read_byte dev).
Proof. apply quiet_ok_read_bits. Qed.

#[local] Hint Resolve quiet_ok_write_byte quiet_ok_read_byte : quiet.

Lemma quiet_ok_read_register dev reg val : quiet_ok (read_register dev reg val).
Proof. unfold read_register. auto 12 with quiet. Qed.

Lemma quiet_ok_write_register dev reg val :
  quiet_ok (write_register dev reg val).
Proof. unfold write_register. auto 12 with quiet. Qed.

Lemma quiet_ok_burst_read_loop dev n :
  forall dst i, quiet_ok (burst_read_loop dev dst i n).
Proof. induction n as [|n IH]; intros dst i; simpl; auto with quiet. Qed.

Lemma quiet_ok_burst_write_loop dev src n :
  forall i, quiet_ok (burst_write_loop dev src i n).
Proof. induction n as [|n IH]; intros i; simpl; auto with quiet. Qed.

#[local] Hint Resolve quiet_ok_burst_read_loop quiet_ok_burst_write_loop : quiet.

Lemma quiet_ok_burst_read dev reg dst len :
  quiet_ok (burst_read dev reg dst len).
Proof. unfold burst_read. auto 10 with quiet. Qed.

Lemma quiet_ok_burst_write dev reg src len :
  quiet_ok (burst_write dev reg src len).
Proof. unfold burst_write. auto 10 with quiet. Qed.

Lemma quiet_ok_update_register dev reg mask val :
  quiet_ok (update_register dev reg mask val).
Proof.
  unfold update_register.
  apply quiet_ok_check; intros; [apply quiet_ok_read_register
                                | apply quiet_ok_write_register].
Qed.

Lemma quiet_ok_is_running d x : quiet_ok (ds1302_is_running (Some d) (Some x)).
Proof.
  unfold ds1302_is_running.
  apply quiet_ok_check; intros; [apply quiet_ok_read_register
                                | apply quiet_ok_ret].
Qed.

Lemma quiet_ok_start d b : quiet_ok (ds1302_start (Some d) b).
Proof.
  unfold ds1302_start.
  apply quiet_ok_check; intros; [apply quiet_ok_update_register
                                | apply quiet_ok_ret].
Qed.

Lemma quiet_ok_init d : quiet_ok (ds1302_init (Some d)).
Proof.
  unfold ds1302_init.
  apply quiet_ok_check; intros; [apply quiet_ok_gpio_config|].
  apply quiet_ok_check; intros; [apply quiet_ok_is_running|].
  destruct a0 as [[d'|] [r|]]; apply quiet_ok_ret.
Qed.

Lemma quiet_ok_get_time d t : quiet_ok (ds1302_get_time (Some d) (Some t)).
Proof.
  unfold ds1302_get_time.
  apply quiet_ok_check; intros; [apply quiet_ok_burst_read
                                | apply quiet_ok_ret].
Qed.

Lemma quiet_ok_set_time d t : quiet_ok (ds1302_set_time (Some d) (Some t)).
Proof. unfold ds1302_set_time. apply quiet_ok_burst_write. Qed.

Lemma quiet_ok_get_write_protect d x :
  quiet_ok (ds1302_get_write_protect (Some d) (Some x)).
Proof.
  unfold ds1302_get_write_protect.
  apply quiet_ok_check; intros; [apply quiet_ok_read_register
                                | apply quiet_ok_ret].
Qed.

(** ** Examples used to exercise the statements *)

Lemma example_dev_pins : distinct_pins example_dev.
Proof. unfold distinct_pins; simpl. repeat split; discriminate. Qed.

(** ** The critical region (C1) *)

(** C1: read_register, burst_read and burst_write leave the critical
    region exactly as deep as they found it on every path, failing or not.
    write_register does not: its last step enters the region a second time
    instead of exiting, so whenever no GPIO call fails it succeeds and
    returns with the region entered twice. *)
Theorem write_register_region_left_entered
        (dev : ds1302_t) (reg val : Z) (dst src : list Z) (len : Z)
        (w : world) :
  crit (snd (read_register dev reg val w)) = crit w
  /\ crit (snd (burst_read dev reg dst len w)) = crit w
  /\ crit (snd (burst_write dev reg src len w)) = crit w
  /\ (gpio_rc w = [] ->
      fst (fst (write_register dev reg val w)) = ESP_OK
      /\ crit (snd (write_register dev reg val w)) = S (S (crit w))).
Proof.
  split; [apply read_register_balanced|].
  split; [apply burst_read_balanced|].
  split; [apply burst_write_balanced|].
  intros Hq.
  destruct (quiet_ok_write_register dev reg val w Hq) as [He _].
  destruct (write_register dev reg val w) as [[e a] w'] eqn:Hrun.
  simpl in He. subst e. split; [reflexivity|].
  apply write_register_ok in Hrun as [_ Hc]. exact Hc.
Qed.

Lemma write_register_region_left_entered_witness :
  gpio_rc (quiet []) = []
  /\ fst (fst (write_register example_dev CH_REG 0 (quiet []))) = ESP_OK
  /\ crit (snd (write_register example_dev CH_REG 0 (quiet []))) = 2%nat.
Proof.
  split; [reflexivity|].
  apply (write_register_region_left_entered
           example_dev CH_REG 0 [] [] 0 (quiet [])).
  reflexivity.
Defined.

(** ** The BCD codec (C7) *)

(** C7: for every decimal value d with 0 <= d <= 99, decoding the BCD
    encoding of d gives d back. *)
Theorem bcd2dec_dec2bcd (d : Z) :
  0 <= d <= 99 -> bcd2dec (dec2bcd d) = d.
Proof. apply bcd_roundtrip_byte. Qed.

Lemma bcd2dec_dec2bcd_witness :
  0 <= 59 <= 99 /\ bcd2dec (dec2bcd 59) = 59.
Proof. split; [lia | apply (bcd2dec_dec2bcd 59); lia]. Defined.

(** ** Reading the clock *)

Lemma get_time_ok d t0 w bs rest t2 w3 :
  Forall byte bs -> length bs = 7%nat ->
  io_level w = bits_of_bytes bs ++ rest ->
  ds1302_get_time (Some d) (Some t0) w = (ESP_OK, t2, w3) ->
  t2 = Some (decode_time bs t0).
Proof.
  intros Hbs Hlen Hio H. unfold ds1302_get_time in H. peel H.
  unfold ret in H. inversion H; subst. clear H.
  apply burst_read_ok in Hs as [_ ->].
  rewrite Hio. change (Z.to_nat 7) with 7%nat. rewrite <- Hlen.
  rewrite sample_bytes_spec by (auto; rewrite repeat_length; simpl; lia).
  rewrite Hlen. simpl. rewrite app_nil_r. reflexivity.
Qed.

Lemma decode_hour_rule (raw : Z) : byte raw -> decode_hour raw = hour_rule raw.
Proof.
  intros Hb. apply Z.eqb_eq.
  apply (forallb_range (fun z => decode_hour z =? hour_rule z) 256);
    [vm_compute; reflexivity | exact Hb].
Qed.

(** C3, against the claim: with register bytes 00 00 92 01 01 01 00 the
    hour read back is not 23, and with hour byte 0x12 it is not 18. *)
Lemma hour_examples_refuted :
  option_map tm_hour
    (snd (read_back example_dev [0; 0; 0x92; 1; 1; 1; 0] tm_zero)) <> Some 23
  /\ option_map tm_hour
       (snd (read_back example_dev [0; 0; 0x12; 1; 1; 1; 0] tm_zero))
     <> Some 18.
Proof. vm_compute. split; discriminate. Qed.

(** C3, amended: a successful get_time decodes the hour byte by the rule
    (top bit set: BCD of the low five bits, minus one, plus twelve when
    bit 5, the PM bit, is set; top bit clear: BCD of the low six bits).
    By that rule 0x92, whose PM bit is clear, gives 11; 0xb2 gives 23; and
    0x12 gives 12. *)
Theorem get_time_hour_decode d t0 w bs rest t2 w3 :
  Forall byte bs -> length bs = 7%nat ->
  io_level w = bits_of_bytes bs ++ rest ->
  ds1302_get_time (Some d) (Some t0) w = (ESP_OK, t2, w3) ->
  option_map tm_hour t2 = Some (hour_rule (nth 2 bs 0))
  /\ hour_rule 0x92 = 11 /\ hour_rule 0xb2 = 23 /\ hour_rule 0x12 = 12.
Proof.
  intros Hbs Hlen Hio H.
  rewrite (get_time_ok _ _ _ _ _ _ _ Hbs Hlen Hio H). simpl.
  rewrite decode_hour_rule; [repeat split; reflexivity|].
  destruct (nth_in_or_default 2 bs 0) as [Hin | ->].
  - rewrite Forall_forall in Hbs. apply Hbs. exact Hin.
  - unfold byte. lia.
Qed.

Lemma get_time_hour_decode_witness :
  option_map tm_hour
    (snd (read_back example_dev [0x59; 0x58; 0x92; 0x31; 0x12; 0x07; 0x99]
                    tm_zero)) = Some 11.
Proof.
  pose (bs := [0x59; 0x58; 0x92; 0x31; 0x12; 0x07; 0x99]).
  pose (w := quiet (bits_of_bytes bs)).
  pose (run := ds1302_get_time (Some example_dev) (Some tm_zero) w).
  assert (Hbs : Forall byte bs)
    by (repeat constructor; unfold byte; lia).
  refine (proj1 (get_time_hour_decode example_dev tm_zero w bs []
                   (snd (fst run)) (snd run) Hbs eq_refl _ _)).
  - symmetry. apply app_nil_r.
  - vm_compute. reflexivity.
Defined.

(** ** The bytes each transaction sends *)

Lemma bytes_of_levels_bytes (bs : list Z) :
  Forall byte bs -> bytes_of_levels (levels_of_bytes bs) = bs.
Proof.
  induction 1 as [|b bs Hb _ IH]; [reflexivity|].
  unfold levels_of_bytes. cbn [flat_map]. fold (levels_of_bytes bs).
  rewrite bytes_of_levels_cons by exact Hb. rewrite IH. reflexivity.
Qed.

Lemma fetched_all (src : list Z) : fetched src 0 (length src) = src.
Proof.
  unfold fetched. induction src as [|h t IH]; [reflexivity|].
  cbn [length seq map nth]. f_equal.
  rewrite <- seq_shift, map_map. exact IH.
Qed.

Lemma fetched_byte (src : list Z) (i n : nat) :
  Forall byte src -> Forall byte (fetched src i n).
Proof.
  intros Hs. unfold fetched. apply Forall_forall. intros x Hx.
  apply in_map_iff in Hx as (j & <- & _).
  destruct (nth_in_or_default j src 0) as [Hin | ->].
  - rewrite Forall_forall in Hs. apply Hs. exact Hin.
  - unfold byte. lia.
Qed.

Section WireBytes.

Variable dev : ds1302_t.
Hypothesis Hpins : distinct_pins dev.

Lemma io_levels_read_register reg :
  io_levels dev (read_register_trace dev reg)
  = levels_of_bytes [u8 (Z.lor reg 0x01)].
Proof.
  unfold read_register_trace.
  rewrite !io_levels_app, !io_levels_prepare, io_levels_write_byte,
    io_levels_read_bits, io_levels_chip_disable by exact Hpins.
  simpl. rewrite ?app_nil_r. reflexivity.
Qed.

Lemma io_levels_write_register reg val :
  io_levels dev (write_register_trace dev reg val)
  = levels_of_bytes [reg; val].
Proof.
  unfold write_register_trace.
  rewrite !io_levels_app, !io_levels_prepare, !io_levels_write_byte,
    io_levels_chip_disable by exact Hpins.
  simpl. rewrite ?app_nil_r. reflexivity.
Qed.

Lemma io_levels_burst_write_loop src n : forall i,
  io_levels dev (burst_write_loop_trace dev src i n)
  = levels_of_bytes (fetched src i n).
Proof.
  induction n as [|n IH]; intros i.
  - apply io_levels_chip_disable. exact Hpins.
  - cbn [burst_write_loop_trace].
    rewrite io_levels_app, io_levels_write_byte, IH by exact Hpins.
    reflexivity.
Qed.

Lemma io_levels_burst_write reg src len :
  io_levels dev (burst_write_trace dev reg src len)
  = levels_of_bytes (reg :: fetched src 0 (Z.to_nat len)).
Proof.
  unfold burst_write_trace.
  rewrite !io_levels_app, io_levels_prepare, io_levels_write_byte,
    io_levels_burst_write_loop by exact Hpins.
  reflexivity.
Qed.

Lemma wire_bytes_read_register reg :
  wire_bytes dev (read_register_trace dev reg) = [u8 (Z.lor reg 0x01)].
Proof.
  unfold wire_bytes. rewrite io_levels_read_register.
  apply bytes_of_levels_bytes.
  constructor; [apply byte_u8 | constructor].
Qed.

Lemma wire_bytes_write_register reg val :
  byte reg -> byte val ->
  wire_bytes dev (write_register_trace dev reg val) = [reg; val].
Proof.
  intros Hr Hv. unfold wire_bytes. rewrite io_levels_write_register.
  apply bytes_of_levels_bytes.
  constructor; [exact Hr | constructor; [exact Hv | constructor]].
Qed.

Lemma wire_bytes_update_register reg val :
  byte reg -> byte val ->
  wire_bytes dev (read_register_trace dev reg
                    ++ write_register_trace dev reg val)
  = [u8 (Z.lor reg 0x01); reg; val].
Proof.
  intros Hr Hv. unfold wire_bytes.
  rewrite io_levels_app, io_levels_read_register, io_levels_write_register.
  unfold levels_of_bytes. rewrite <- flat_map_app.
  apply bytes_of_levels_bytes.
  constructor; [apply byte_u8 |].
  constructor; [exact Hr | constructor; [exact Hv | constructor]].
Qed.

Lemma wire_bytes_burst_write reg src len :
  byte reg -> Forall byte src ->
  wire_bytes dev (burst_write_trace dev reg src len)
  = reg :: fetched src 0 (Z.to_nat len).
Proof.
  intros Hr Hs. unfold wire_bytes. rewrite io_levels_burst_write.
  apply bytes_of_levels_bytes.
  constructor; [exact Hr | apply fetched_byte; exact Hs].
Qed.

End WireBytes.

Lemma lor_1_u8 (reg : Z) : byte reg -> u8 (Z.lor reg 0x01) = Z.lor reg 1.
Proof.
  intros Hb. apply Z.eqb_eq.
  apply (forallb_range (fun z => u8 (Z.lor z 0x01) =? Z.lor z 1) 256);
    [vm_compute; reflexivity | exact Hb].
Qed.

(** ** The command byte (C4) *)

(** C4, against the claim: for the seconds register 0x80 the two command
    bytes are 0x81 and 0x80; they agree in the most significant bit and
    differ in the least significant one. *)
Lemma command_bytes_share_msb :
  read_command example_dev CH_REG = 0x81
  /\ write_command example_dev CH_REG 0 = 0x80
  /\ Z.lxor (read_command example_dev CH_REG)
            (write_command example_dev CH_REG 0) <> 0x80.
Proof. vm_compute. repeat split; discriminate. Qed.

(** C4, amended: the read/write selector is the least significant bit.
    A successful read_register(addr) sends addr | 1 as its command byte and
    a successful write_register(addr) sends addr itself: the two agree in
    bits 1 to 7, the read command has bit 0 set, and for an even addr
    they differ exactly in bit 0. *)
Theorem command_byte_selects_by_lsb d reg val v0 w1 r w1' w2 a w2' :
  distinct_pins d -> byte reg -> byte val ->
  read_register d reg v0 w1 = (ESP_OK, r, w1') ->
  write_register d reg val w2 = (ESP_OK, a, w2') ->
  hd_error (wire_bytes d (new_events w1 w1')) = Some (Z.lor reg 1)
  /\ hd_error (wire_bytes d (new_events w2 w2')) = Some reg
  /\ (forall i, 1 <= i -> Z.testbit (Z.lor reg 1) i = Z.testbit reg i)
  /\ Z.testbit (Z.lor reg 1) 0 = true
  /\ (Z.even reg = true -> Z.lxor (Z.lor reg 1) reg = 1).
Proof.
  intros Hp Hr Hv Hrd Hwr.
  apply read_register_ok in Hrd as [Hrd _].
  apply write_register_ok in Hwr as [Hwr _].
  rewrite (steps_new_events _ _ _ _ Hrd), (steps_new_events _ _ _ _ Hwr).
  rewrite wire_bytes_read_register, wire_bytes_write_register by assumption.
  rewrite lor_1_u8 by exact Hr.
  split; [reflexivity|]. split; [reflexivity|].
  split; [|split].
  - intros i Hi. rewrite Z.lor_spec.
    replace (Z.testbit 1 i) with false; [apply orb_false_r|].
    symmetry. change 1 with (2 ^ 0). apply Z.pow2_bits_false. lia.
  - rewrite Z.lor_spec. apply orb_true_r.
  - intros He. apply Z.eqb_eq.
    revert He. pattern reg.
    assert (H : (fun z => implb (Z.even z) (Z.lxor (Z.lor z 1) z =? 1)) reg
                = true).
    { apply (forallb_range
               (fun z => implb (Z.even z) (Z.lxor (Z.lor z 1) z =? 1)) 256);
        [vm_compute; reflexivity | exact Hr]. }
    simpl in H. intros He. rewrite He in H. exact H.
Qed.

Lemma command_byte_selects_by_lsb_witness :
  hd_error (wire_bytes example_dev
              (trace (snd (read_register example_dev WP_REG 0 (quiet [])))))
  = Some (Z.lor WP_REG 1).
Proof.
  pose (rd := read_register example_dev WP_REG 0 (quiet [])).
  pose (wr := write_register example_dev WP_REG 0 (quiet [])).
  refine (proj1 (command_byte_selects_by_lsb
                   example_dev WP_REG 0 0
                   (quiet []) (snd (fst rd)) (snd rd)
                   (quiet []) (snd (fst wr)) (snd wr)
                   example_dev_pins _ _ _ _));
    try (unfold byte; vm_compute; split; congruence);
    vm_compute; reflexivity.
Defined.

(** ** Masked register update (C5) *)

Lemma byte_testbit_high (b i : Z) : byte b -> 8 <= i -> Z.testbit b i = false.
Proof.
  intros Hb Hi. rewrite <- (Z.mod_small b (2 ^ 8)) by exact Hb.
  apply Z.mod_pow2_bits_high. lia.
Qed.

Lemma u8_bitwise (x : Z) :
  (forall i, 8 <= i -> Z.testbit x i = false) -> u8 x = x.
Proof.
  intros Hhigh. unfold u8. change 256 with (2 ^ 8).
  apply Z.bits_inj'. intros i Hi.
  destruct (Z.lt_ge_cases i 8) as [Hlt | Hge].
  - apply Z.mod_pow2_bits_low. exact Hlt.
  - rewrite Z.mod_pow2_bits_high by lia. symmetry. apply Hhigh. exact Hge.
Qed.

Lemma u8_masked (cur mask val : Z) :
  byte cur -> byte val ->
  u8 (Z.lor (Z.land cur mask) val) = Z.lor (Z.land cur mask) val.
Proof.
  intros Hc Hv. apply u8_bitwise. intros i Hi.
  rewrite Z.lor_spec, Z.land_spec.
  rewrite (byte_testbit_high cur i Hc Hi), (byte_testbit_high val i Hv Hi).
  reflexivity.
Qed.

(** C5, against the claim: with current byte 0x80, mask 0x7f and value
    0x01 the byte written back is 0x01.  Bit 7, where the mask is 0, and
    bit 0, where the mask is 1, both differ from the current byte, so
    neither the bits outside the mask nor the bits inside it are all
    preserved. *)
Lemma update_register_changes_bits :
  written_back example_dev CH_REG 0x7f 0x01 0x80 = 0x01
  /\ ~ (forall i, Z.testbit 0x7f i = false ->
                  Z.testbit (written_back example_dev CH_REG 0x7f 0x01 0x80) i
                  = Z.testbit 0x80 i)
  /\ ~ (forall i, Z.testbit 0x7f i = true ->
                  Z.testbit (written_back example_dev CH_REG 0x7f 0x01 0x80) i
                  = Z.testbit 0x80 i).
Proof.
  assert (E : written_back example_dev CH_REG 0x7f 0x01 0x80 = 0x01)
    by (vm_compute; reflexivity).
  rewrite E. split; [reflexivity|]. split; intros H.
  - specialize (H 7 eq_refl). discriminate H.
  - specialize (H 0 eq_refl). discriminate H.
Qed.

Lemma update_register_wire d reg mask val cur rest w a w' :
  distinct_pins d -> byte reg -> byte val -> byte cur ->
  io_level w = bits_of_byte cur ++ rest ->
  update_register d reg mask val w = (ESP_OK, a, w') ->
  wire_bytes d (new_events w w')
  = [Z.lor reg 1; reg; Z.lor (Z.land cur mask) val].
Proof.
  intros Hp Hr Hv Hc Hio H.
  apply update_register_ok in H. cbv zeta in H.
  rewrite Hio, (sample_bits_byte cur rest Hc) in H.
  rewrite (steps_new_events _ _ _ _ H).
  rewrite wire_bytes_update_register
    by (try assumption; apply byte_u8).
  rewrite lor_1_u8 by exact Hr. rewrite u8_masked by assumption.
  reflexivity.
Qed.

(** C5, amended: a successful update_register(addr, mask, value) reads the
    current byte, and writes (current & mask) | value back to the same
    register.  The byte written keeps the current bit wherever the mask
    bit is 1 and the value bit is 0, and carries the value's bit wherever
    the mask bit is 0. *)
Theorem update_register_read_modify_write d reg mask val cur rest w a w' :
  distinct_pins d -> byte reg -> byte val -> byte cur ->
  io_level w = bits_of_byte cur ++ rest ->
  update_register d reg mask val w = (ESP_OK, a, w') ->
  wire_bytes d (new_events w w')
  = [Z.lor reg 1; reg; Z.lor (Z.land cur mask) val]
  /\ (forall i, Z.testbit mask i = true -> Z.testbit val i = false ->
                Z.testbit (Z.lor (Z.land cur mask) val) i = Z.testbit cur i)
  /\ (forall i, Z.testbit mask i = false ->
                Z.testbit (Z.lor (Z.land cur mask) val) i = Z.testbit val i).
Proof.
  intros Hp Hr Hv Hc Hio H.
  split; [exact (update_register_wire _ _ _ _ _ _ _ _ _ Hp Hr Hv Hc Hio H)|].
  split.
  - intros i Hmi Hvi. rewrite Z.lor_spec, Z.land_spec, Hmi, Hvi.
    rewrite andb_true_r, orb_false_r. reflexivity.
  - intros i Hmi. rewrite Z.lor_spec, Z.land_spec, Hmi.
    rewrite andb_false_r. reflexivity.
Qed.

Lemma update_register_read_modify_write_witness :
  wire_bytes example_dev
    (new_events (quiet (bits_of_byte 0xd9))
       (snd (update_register example_dev CH_REG CH_MASK 0
                             (quiet (bits_of_byte 0xd9)))))
  = [Z.lor CH_REG 1; CH_REG; Z.lor (Z.land 0xd9 CH_MASK) 0].
Proof.
  pose (w := quiet (bits_of_byte 0xd9)).
  pose (run := update_register example_dev CH_REG CH_MASK 0 w).
  refine (proj1 (update_register_read_modify_write
                   example_dev CH_REG CH_MASK 0 0xd9 [] w
                   (snd (fst run)) (snd run)
                   example_dev_pins _ _ _ _ _));
    try (unfold byte; vm_compute; split; congruence);
    vm_compute; reflexivity.
Defined.

(** ** Setting and reading the time (C2, C10) *)

Lemma encode_time_byte h t : Forall byte (encode_time h t).
Proof.
  unfold encode_time.
  repeat (constructor; [apply byte_u8 |]).
  constructor; [unfold byte; lia | constructor].
Qed.

Lemma encode_time_byte7 h t : Forall byte (firstn 7 (encode_time h t)).
Proof.
  unfold encode_time. cbn [firstn].
  repeat (constructor; [apply byte_u8 |]). constructor.
Qed.

Lemma set_time_wire d t w a w1 :
  distinct_pins d ->
  ds1302_set_time (Some d) (Some t) w = (ESP_OK, a, w1) ->
  wire_bytes d (new_events w w1) = CLOCK_BURST :: encode_time (ch d) t.
Proof.
  intros Hp H. unfold ds1302_set_time in H.
  apply burst_write_ok in H. rewrite (steps_new_events _ _ _ _ H).
  assert (Hb : byte CLOCK_BURST) by (unfold byte, CLOCK_BURST; lia).
  rewrite (wire_bytes_burst_write d Hp _ _ _ Hb (encode_time_byte (ch d) t)).
  reflexivity.
Qed.

Lemma seconds_roundtrip (h : bool) (s : Z) :
  0 <= s <= 59 ->
  bcd2dec (Z.land (u8 (Z.lor (dec2bcd (u8 s)) (if h then CH_BIT else 0)))
                  SECONDS_MASK) = s
  /\ Z.testbit (u8 (Z.lor (dec2bcd (u8 s)) (if h then CH_BIT else 0))) 7 = h.
Proof.
  intros Hs.
  pose (P := fun (h : bool) (s : Z) =>
    let raw := u8 (Z.lor (dec2bcd (u8 s)) (if h then CH_BIT else 0)) in
    (bcd2dec (Z.land raw SECONDS_MASK) =? s) && eqb (Z.testbit raw 7) h).
  assert (H : P h s = true).
  { apply (forallb_range (P h) 60); [|lia].
    destruct h; vm_compute; reflexivity. }
  unfold P in H. cbv zeta in H. apply andb_true_iff in H as [H1 H2].
  split; [apply Z.eqb_eq; exact H1 | apply eqb_prop; exact H2].
Qed.

Lemma hour_roundtrip (h : Z) :
  0 <= h <= 23 -> decode_hour (dec2bcd (u8 h)) = h.
Proof.
  intros Hh. apply Z.eqb_eq.
  apply (forallb_range (fun z => decode_hour (dec2bcd (u8 z)) =? z) 24);
    [vm_compute; reflexivity | lia].
Qed.

Lemma field_roundtrip (x : Z) :
  0 <= x <= 99 -> bcd2dec (dec2bcd (u8 x)) = x.
Proof.
  intros Hx. rewrite u8_small by lia. apply bcd_roundtrip_byte. exact Hx.
Qed.

Lemma decode_encode_time (h : bool) (r t0 : tm) :
  native_ranges r ->
  decode_time (firstn 7 (encode_time h r)) t0 = chip_fields r t0.
Proof.
  intros (Hs & Hm & Hh & Hd & Hmo & Hw & Hy).
  unfold decode_time, encode_time, chip_fields. cbn [firstn nth].
  rewrite (proj1 (seconds_roundtrip h _ Hs)).
  rewrite (hour_roundtrip _ Hh).
  rewrite !field_roundtrip by lia.
  f_equal; lia.
Qed.

(** C2: for a time record within the native ranges, when set_time
    succeeds and the chip then answers the clock burst of get_time with
    the seven time bytes set_time put on the wire, a successful get_time
    returns the record that was written (the two fields of struct tm the
    driver never touches stay as they were in the destination).  The top
    bit of the seconds byte that set_time writes is the cached clock-halt
    flag. *)
Theorem set_time_get_time_roundtrip d r t0 w a w1 w2 rest t2 w3 :
  distinct_pins d -> native_ranges r ->
  ds1302_set_time (Some d) (Some r) w = (ESP_OK, a, w1) ->
  io_level w2
  = bits_of_bytes (firstn 7 (tl (wire_bytes d (new_events w w1)))) ++ rest ->
  ds1302_get_time (Some d) (Some t0) w2 = (ESP_OK, t2, w3) ->
  t2 = Some (chip_fields r t0)
  /\ (tm_yday t0 = tm_yday r -> tm_isdst t0 = tm_isdst r -> t2 = Some r)
  /\ Z.testbit (nth 1 (wire_bytes d (new_events w w1)) 0) 7 = ch d.
Proof.
  intros Hp Hr Hset Hio Hget.
  rewrite (set_time_wire _ _ _ _ _ Hp Hset) in *. cbn [tl] in Hio.
  assert (E : t2 = Some (chip_fields r t0)).
  { rewrite (get_time_ok d t0 w2 _ rest t2 w3
                         (encode_time_byte7 (ch d) r)
                         eq_refl Hio Hget).
    rewrite decode_encode_time by exact Hr. reflexivity. }
  split; [exact E|]. split.
  - intros Hy Hi. rewrite E. unfold chip_fields. rewrite Hy, Hi.
    destruct r; reflexivity.
  - destruct Hr as (Hs & _). cbn [nth encode_time].
    apply (proj2 (seconds_roundtrip (ch d) _ Hs)).
Qed.

Lemma set_time_get_time_roundtrip_witness :
  let w := quiet [] in
  let w1 := snd (ds1302_set_time (Some example_dev) (Some example_time) w) in
  let w2 := quiet (bits_of_bytes
                     (firstn 7 (tl (wire_bytes example_dev
                                                (new_events w w1))))) in
  snd (fst (ds1302_get_time (Some example_dev) (Some tm_zero) w2))
  = Some (chip_fields example_time tm_zero).
Proof.
  intros w w1 w2.
  pose (run := ds1302_get_time (Some example_dev) (Some tm_zero) w2).
  refine (proj1 (set_time_get_time_roundtrip
                   example_dev example_time tm_zero w tt w1 w2 []
                   (snd (fst run)) (snd run) example_dev_pins _ _ _ _)).
  - unfold native_ranges, example_time; simpl. lia.
  - vm_compute. reflexivity.
  - symmetry. apply app_nil_r.
  - vm_compute. reflexivity.
Defined.

Lemma top_bit_test (r : Z) :
  byte r -> (Z.land r (Z.shiftl 1 7) =? 0) = negb (Z.testbit r 7).
Proof.
  intros Hr. apply eqb_prop.
  apply (forallb_range
           (fun z => eqb (Z.land z (Z.shiftl 1 7) =? 0) (negb (Z.testbit z 7)))
           256);
    [vm_compute; reflexivity | exact Hr].
Qed.

Lemma get_write_protect_ok d wp0 w r rest wp w3 :
  byte r -> io_level w = bits_of_byte r ++ rest ->
  ds1302_get_write_protect (Some d) (Some wp0) w = (ESP_OK, wp, w3) ->
  wp = Some (Z.testbit r 7).
Proof.
  intros Hr Hio H. unfold ds1302_get_write_protect in H. peel H.
  unfold ret in H. inversion H; subst. clear H.
  apply read_register_ok in Hs as [_ ->].
  rewrite Hio, sample_bits_byte by exact Hr.
  unfold WP_BIT. rewrite top_bit_test by exact Hr.
  rewrite negb_involutive. reflexivity.
Qed.

(** C10: a successful set_time sends the clock-burst command followed by
    exactly eight data bytes, the eighth of which is 0.  The eighth
    register of the clock block is the write-protect register
    (WP_REG = CH_REG + 2 * 7); a chip that stores the eighth burst byte
    there reports write protection off at the next successful
    get_write_protect, whatever it held before. *)
Theorem set_time_clears_write_protect d t w a w1 wp0 w2 rest wp w3 :
  distinct_pins d ->
  ds1302_set_time (Some d) (Some t) w = (ESP_OK, a, w1) ->
  io_level w2
  = bits_of_byte (nth 8 (wire_bytes d (new_events w w1)) 0) ++ rest ->
  ds1302_get_write_protect (Some d) (Some wp0) w2 = (ESP_OK, wp, w3) ->
  length (wire_bytes d (new_events w w1)) = 9%nat
  /\ hd 0 (wire_bytes d (new_events w w1)) = CLOCK_BURST
  /\ nth 8 (wire_bytes d (new_events w w1)) 0 = 0
  /\ WP_REG = CH_REG + 2 * 7
  /\ wp = Some false.
Proof.
  intros Hp Hset Hio Hget.
  rewrite (set_time_wire _ _ _ _ _ Hp Hset) in *.
  cbn [nth encode_time] in Hio.
  repeat split.
  assert (Hz : byte 0) by (unfold byte; lia).
  rewrite (get_write_protect_ok _ _ _ _ _ _ _ Hz Hio Hget). reflexivity.
Qed.

Lemma set_time_clears_write_protect_witness :
  let w := quiet [] in
  let w1 := snd (ds1302_set_time (Some example_dev) (Some example_time) w) in
  let sent := wire_bytes example_dev (new_events w w1) in
  let w2 := quiet (bits_of_byte (nth 8 sent 0)) in
  length sent = 9%nat
  /\ hd 0 sent = CLOCK_BURST
  /\ nth 8 sent 0 = 0
  /\ WP_REG = CH_REG + 2 * 7
  /\ snd (fst (ds1302_get_write_protect (Some example_dev) (Some true) w2))
     = Some false.
Proof.
  intros w w1 sent w2.
  pose (run := ds1302_get_write_protect (Some example_dev) (Some true) w2).
  refine (set_time_clears_write_protect
            example_dev example_time w tt w1 true w2 []
            (snd (fst run)) (snd run) example_dev_pins _ _ _).
  - vm_compute. reflexivity.
  - symmetry. apply app_nil_r.
  - vm_compute. reflexivity.
Defined.

(** ** The cached clock-halt flag (C8) *)

Lemma is_running_ok d x w r rest dev' run' w' :
  byte r -> io_level w = bits_of_byte r ++ rest ->
  ds1302_is_running (Some d) (Some x) w = (ESP_OK, (dev', run'), w') ->
  dev' = Some (set_ch d (Z.testbit r 7))
  /\ run' = Some (negb (Z.testbit r 7)).
Proof.
  intros Hr Hio H. unfold ds1302_is_running in H. peel H.
  unfold ret in H. inversion H; subst. clear H.
  apply read_register_ok in Hs as [_ ->].
  rewrite Hio, sample_bits_byte by exact Hr.
  unfold CH_BIT. rewrite top_bit_test by exact Hr.
  rewrite negb_involutive. split; reflexivity.
Qed.

Lemma start_value_top_bit (cur : Z) (b : bool) :
  byte cur ->
  Z.testbit (Z.lor (Z.land cur CH_MASK) (if b then 0 else CH_BIT)) 7 = negb b.
Proof.
  intros Hc. apply eqb_prop.
  apply (forallb_range
           (fun z => eqb (Z.testbit (Z.lor (Z.land z CH_MASK)
                                           (if b then 0 else CH_BIT)) 7)
                         (negb b)) 256);
    [destruct b; vm_compute; reflexivity | exact Hc].
Qed.

(** C8: after a successful start(b) the cached flag is not b, and so is
    the clock-halt bit of the byte start wrote to the seconds register;
    after a successful is_running the cached flag is the clock-halt bit
    (bit 7) of the seconds byte just read, and the reported running state
    its complement; a successful init leaves the cache equal to the
    clock-halt bit read by its query of the running state. *)
Theorem cached_clock_halt_flag d r rest w :
  distinct_pins d -> byte r -> io_level w = bits_of_byte r ++ rest ->
  (forall b dev' w',
      ds1302_start (Some d) b w = (ESP_OK, dev', w') ->
      dev' = Some (set_ch d (negb b))
      /\ Z.testbit (nth 2 (wire_bytes d (new_events w w')) 0) 7 = negb b)
  /\ (forall x dev' run' w',
         ds1302_is_running (Some d) (Some x) w = (ESP_OK, (dev', run'), w') ->
         dev' = Some (set_ch d (Z.testbit r 7))
         /\ run' = Some (negb (Z.testbit r 7))
         /\ wire_bytes d (new_events w w') = [Z.lor CH_REG 1])
  /\ (forall dev' w',
         ds1302_init (Some d) w = (ESP_OK, dev', w') ->
         dev' = Some (set_ch d (Z.testbit r 7))).
Proof.
  intros Hp Hr Hio. split; [|split].
  - intros b dev' w' H. unfold ds1302_start in H. peel H.
    unfold ret in H. inversion H; subst. clear H.
    split; [reflexivity|].
    assert (Hv : byte (if b then 0 else CH_BIT))
      by (destruct b; unfold byte, CH_BIT; simpl; lia).
    assert (Hreg : byte CH_REG) by (unfold byte, CH_REG; lia).
    rewrite (update_register_wire
               d CH_REG CH_MASK _ r rest w a w' Hp Hreg Hv Hr Hio Hs).
    cbn [nth]. apply start_value_top_bit. exact Hr.
  - intros x dev' run' w' H.
    destruct (is_running_ok _ _ _ _ _ _ _ _ Hr Hio H) as [-> ->].
    split; [reflexivity|]. split; [reflexivity|].
    unfold ds1302_is_running in H. peel H.
    unfold ret in H. inversion H; subst. clear H.
    apply read_register_ok in Hs as [Hs _].
    rewrite (steps_new_events _ _ _ _ Hs).
    rewrite wire_bytes_read_register by exact Hp. reflexivity.
  - intros dev' w' H. unfold ds1302_init in H. peel H.
    apply platform_call_steps in Hs. destruct Hs as [_ Hio0].
    simpl in Hio0. rewrite Hio in Hio0.
    peel H. destruct a0 as [d1 r1].
    destruct (is_running_ok _ _ _ _ _ _ _ _ Hr Hio0 Hs) as [-> ->].
    unfold ret in H. inversion H; subst. clear H.
    unfold set_ch. simpl. rewrite negb_involutive. reflexivity.
Qed.

Lemma cached_clock_halt_flag_witness :
  snd (fst (ds1302_init (Some example_dev) (quiet (bits_of_byte 0xd9))))
  = Some (set_ch example_dev true).
Proof.
  pose (w := quiet (bits_of_byte 0xd9)).
  pose (run := ds1302_init (Some example_dev) w).
  assert (Hr : byte 0xd9) by (unfold byte; lia).
  refine (proj2 (proj2 (cached_clock_halt_flag
                          example_dev 0xd9 [] w example_dev_pins Hr _))
                (snd (fst run)) (snd run) _).
  - symmetry. apply app_nil_r.
  - vm_compute. reflexivity.
Defined.

(** ** Argument checks (C6) *)

(** C6: a null handle, a null out-pointer or buffer, a zero length, or
    offset + length above the scratch-memory capacity makes the operation
    return ESP_ERR_INVALID_ARG with the world (trace, pending platform
    results, critical section) and every cell it could write exactly as
    before; write_sram at offset capacity - 1 with length 2 is such a
    call. *)
Theorem invalid_argument_no_side_effects
        (DS1302_RAM_SIZE : Z) dev buf offset len w :
  dev = None \/ buf = None \/ len = 0 \/ DS1302_RAM_SIZE < offset + len ->
  ds1302_read_sram DS1302_RAM_SIZE dev offset buf len w
  = (ESP_ERR_INVALID_ARG, buf, w)
  /\ ds1302_write_sram DS1302_RAM_SIZE dev offset buf len w
     = (ESP_ERR_INVALID_ARG, tt, w)
  /\ (forall d b,
         ds1302_write_sram DS1302_RAM_SIZE (Some d) (DS1302_RAM_SIZE - 1)
                           (Some b) 2 w
         = (ESP_ERR_INVALID_ARG, tt, w))
  /\ ds1302_init None w = (ESP_ERR_INVALID_ARG, None, w)
  /\ (forall start, ds1302_start None start w = (ESP_ERR_INVALID_ARG, None, w))
  /\ (forall running,
         ds1302_is_running None running w
         = (ESP_ERR_INVALID_ARG, (None, running), w))
  /\ (forall h,
         ds1302_is_running h None w = (ESP_ERR_INVALID_ARG, (h, None), w))
  /\ (forall wp,
         ds1302_set_write_protect None wp w = (ESP_ERR_INVALID_ARG, tt, w))
  /\ (forall wp,
         ds1302_get_write_protect None wp w = (ESP_ERR_INVALID_ARG, wp, w))
  /\ (forall h,
         ds1302_get_write_protect h None w = (ESP_ERR_INVALID_ARG, None, w))
  /\ (forall time,
         ds1302_get_time None time w = (ESP_ERR_INVALID_ARG, time, w))
  /\ (forall h, ds1302_get_time h None w = (ESP_ERR_INVALID_ARG, None, w))
  /\ (forall time, ds1302_set_time None time w = (ESP_ERR_INVALID_ARG, tt, w))
  /\ (forall h, ds1302_set_time h None w = (ESP_ERR_INVALID_ARG, tt, w)).
Proof.
  intros Hbad.
  assert (Hsram :
            ds1302_read_sram DS1302_RAM_SIZE dev offset buf len w
            = (ESP_ERR_INVALID_ARG, buf, w)
            /\ ds1302_write_sram DS1302_RAM_SIZE dev offset buf len w
               = (ESP_ERR_INVALID_ARG, tt, w)).
  { unfold ds1302_read_sram, ds1302_write_sram.
    destruct dev as [d|]; [|split; reflexivity].
    destruct buf as [b|]; [|split; reflexivity].
    destruct (Z.eqb_spec len 0) as [E|E]; [split; reflexivity|].
    destruct (Z.leb_spec (offset + len) DS1302_RAM_SIZE) as [L|L];
      [|split; reflexivity].
    destruct Hbad as [Hd | [Hb | [Hl | Ho]]];
      [discriminate | discriminate | contradiction | lia]. }
  destruct Hsram as [Hrd Hwr].
  split; [exact Hrd|]. split; [exact Hwr|].
  split.
  { intros d b. unfold ds1302_write_sram. simpl.
    destruct (Z.leb_spec (DS1302_RAM_SIZE - 1 + 2) DS1302_RAM_SIZE) as [L|L];
      [lia | reflexivity]. }
  repeat split; try reflexivity; intros [h|]; reflexivity.
Qed.

Lemma invalid_argument_no_side_effects_witness :
  31 < 30 + 2
  /\ ds1302_write_sram 31 (Some example_dev) 30 (Some [1; 2]) 2 (quiet [])
     = (ESP_ERR_INVALID_ARG, tt, quiet []).
Proof.
  split; [lia|].
  refine (proj1 (proj2 (invalid_argument_no_side_effects
                          31 (Some example_dev) (Some [1; 2]) 30 2
                          (quiet []) _))).
  right. right. right. lia.
Defined.

(** ** The scratch-memory offset (C9) *)

(** C9: for two offsets that both pass the bounds check, read_sram and
    write_sram do exactly the same thing: the results, the buffers and the
    whole trace of platform calls coincide.  With valid pointers and a
    non-zero length the operation is the burst on RAM_BURST over the
    buffer from its first byte, in which the offset does not occur. *)
Theorem sram_offset_only_checked
        (DS1302_RAM_SIZE : Z) dev buf o1 o2 len w :
  o1 + len <= DS1302_RAM_SIZE -> o2 + len <= DS1302_RAM_SIZE ->
  ds1302_read_sram DS1302_RAM_SIZE dev o1 buf len w
  = ds1302_read_sram DS1302_RAM_SIZE dev o2 buf len w
  /\ ds1302_write_sram DS1302_RAM_SIZE dev o1 buf len w
     = ds1302_write_sram DS1302_RAM_SIZE dev o2 buf len w
  /\ (forall d b,
         len <> 0 ->
         ds1302_write_sram DS1302_RAM_SIZE (Some d) o1 (Some b) len w
         = burst_write d RAM_BURST b len w
         /\ ds1302_read_sram DS1302_RAM_SIZE (Some d) o1 (Some b) len w
            = check (burst_read d RAM_BURST b len) Some
                    (fun b' => ret ESP_OK (Some b')) w).
Proof.
  intros H1 H2.
  apply Z.leb_le in H1, H2.
  unfold ds1302_read_sram, ds1302_write_sram. rewrite H1, H2.
  split; [reflexivity|]. split; [reflexivity|].
  intros d b Hlen. apply Z.eqb_neq in Hlen. rewrite Hlen.
  split; reflexivity.
Qed.

Lemma sram_offset_only_checked_witness :
  ds1302_read_sram 31 (Some example_dev) 0 (Some [0; 0; 0]) 3
                   (quiet (bits_of_bytes [0xaa; 0xbb; 0xcc]))
  = ds1302_read_sram 31 (Some example_dev) 28 (Some [0; 0; 0]) 3
                     (quiet (bits_of_bytes [0xaa; 0xbb; 0xcc])).
Proof.
  refine (proj1 (sram_offset_only_checked
                   31 (Some example_dev) (Some [0; 0; 0]) 0 28 3
                   (quiet (bits_of_bytes [0xaa; 0xbb; 0xcc])) _ _)); lia.
Defined.

(** * Further properties *)

(** ** Every path of a transaction is the replay of its script *)

Lemma play_app T1 : forall T2 rc,
  play (T1 ++ T2) rc
  = if is_ok (out_err (play T1 rc))
    then mk_outcome (out_err (play T2 (out_rc (play T1 rc))))
                    (out_done (play T1 rc)
                       ++ out_done (play T2 (out_rc (play T1 rc))))
                    (out_rc (play T2 (out_rc (play T1 rc))))
    else play T1 rc.
Proof.
  induction T1 as [|ev T1 IH]; intros T2 rc.
  - simpl. destruct (play T2 rc); reflexivity.
  - cbn [app play].
    destruct (fallible ev).
    + destruct (is_ok (hd ESP_OK rc)) eqn:E.
      * rewrite IH. cbn [out_err out_done out_rc].
        destruct (is_ok (out_err (play T1 (tl rc)))); reflexivity.
      * cbn [out_err]. rewrite E. reflexivity.
    + rewrite IH. cbn [out_err out_done out_rc].
      destruct (is_ok (out_err (play T1 rc))); reflexivity.
Qed.

Lemma plays_at_ret {A} (a : A) w : plays_at [] (ret ESP_OK a) w.
Proof. repeat split. simpl. symmetry. apply app_nil_r. Qed.

Lemma plays_at_platform_call ev w :
  fallible ev = true -> plays_at [ev] (platform_call ev) w.
Proof.
  intros Hf. unfold plays_at, platform_call. cbn [play fst snd].
  rewrite Hf. destruct (is_ok (hd ESP_OK (gpio_rc w))) eqn:E.
  - unfold is_ok in E. apply Z.eqb_eq in E. repeat split. exact E.
  - repeat split.
Qed.

Lemma plays_at_check {A B} T1 T2 (x : M A) (out : A -> B) (k : A -> M B) w :
  plays_at T1 x w ->
  plays_at T2 (k (snd (fst (x w)))) (snd (x w)) ->
  plays_at (T1 ++ T2) (check x out k) w.
Proof.
  unfold plays_at, check. rewrite play_app.
  destruct (x w) as [[e a] w1]. cbn [fst snd].
  intros (He & Ht & Hr) (He2 & Ht2 & Hr2). rewrite <- He.
  destruct (is_ok e).
  - cbn [out_err out_done out_rc]. rewrite <- Hr.
    split; [exact He2|]. split; [|exact Hr2].
    rewrite Ht2, Ht, app_assoc. reflexivity.
  - cbn [fst snd]. repeat split; assumption.
Qed.

Lemma plays_at_check_mux {A B} T1 T2 (x : M A) (out : A -> B) (k : A -> M B)
      w :
  plays_at T1 x w ->
  plays_at T2 (k (snd (fst (x w)))) (snd (x w)) ->
  plays_at (T1 ++ T2) (check_mux x out k) w.
Proof.
  unfold plays_at, check_mux. rewrite play_app.
  destruct (x w) as [[e a] w1]. cbn [fst snd].
  intros (He & Ht & Hr) (He2 & Ht2 & Hr2). rewrite <- He.
  destruct (is_ok e).
  - cbn [out_err out_done out_rc]. rewrite <- Hr.
    split; [exact He2|]. split; [|exact Hr2].
    rewrite Ht2, Ht, app_assoc. reflexivity.
  - cbn [fst snd PORT_EXIT_CRITICAL trace gpio_rc]. repeat split; assumption.
Qed.

Lemma plays_at_silent {B} ev (f : world -> world) T (k : M B) w :
  fallible ev = false ->
  trace (f w) = trace w ++ [ev] -> gpio_rc (f w) = gpio_rc w ->
  plays_at T k (f w) ->
  plays_at (ev :: T) (void f k) w.
Proof.
  unfold plays_at, void. intros Hf Ht Hr. rewrite Hr, Ht.
  cbn [play]. rewrite Hf. cbn [out_err out_done out_rc].
  intros (He & Ht2 & Hr2). split; [exact He|]. split; [|exact Hr2].
  rewrite Ht2, <- app_assoc. reflexivity.
Qed.

Lemma plays_at_delay {B} us T (k : M B) w :
  plays_at T k (ets_delay_us us w) ->
  plays_at (EvDelay us :: T) (DO ets_delay_us us ;; k) w.
Proof. apply plays_at_silent; reflexivity. Qed.

Lemma plays_at_enter {B} T (k : M B) w :
  plays_at T k (PORT_ENTER_CRITICAL w) ->
  plays_at T (DO PORT_ENTER_CRITICAL ;; k) w.
Proof. intros H. exact H. Qed.

Lemma plays_at_exit {B} T (k : M B) w :
  plays_at T k (PORT_EXIT_CRITICAL w) ->
  plays_at T (DO PORT_EXIT_CRITICAL ;; k) w.
Proof. intros H. exact H. Qed.

Lemma plays_chip_enable dev : plays (chip_enable_trace dev) (chip_enable dev).
Proof.
  intros w. unfold chip_enable, chip_enable_trace.
  apply (plays_at_check [_] [_]); [apply plays_at_platform_call; reflexivity|].
  apply plays_at_delay. apply plays_at_ret.
Qed.

Lemma plays_chip_disable dev :
  plays [EvSetLevel (ce_pin dev) 0] (chip_disable dev).
Proof. intros w. apply plays_at_platform_call. reflexivity. Qed.

Lemma plays_prepare dev mode : plays (prepare_trace dev mode) (prepare dev mode).
Proof.
  intros w. unfold prepare, prepare_trace.
  apply (plays_at_check [_] (_ :: _));
    [apply plays_at_platform_call; reflexivity|].
  apply (plays_at_check [_] _); [apply plays_at_platform_call; reflexivity|].
  apply plays_chip_enable.
Qed.

Lemma plays_toggle_clock dev :
  plays (toggle_clock_trace dev) (toggle_clock dev).
Proof.
  intros w. unfold toggle_clock, toggle_clock_trace.
  apply (plays_at_check [_] (_ :: _));
    [apply plays_at_platform_call; reflexivity|].
  apply plays_at_delay.
  apply (plays_at_check [_] [_]); [apply plays_at_platform_call; reflexivity|].
  apply plays_at_delay. apply plays_at_ret.
Qed.

Lemma plays_write_bits dev b n : forall i,
  plays (write_bits_trace dev b i n) (write_bits dev b i n).
Proof.
  induction n as [|n IH]; intros i w; [apply plays_at_ret|].
  cbn [write_bits write_bits_trace].
  apply (plays_at_check [_] _); [apply plays_at_platform_call; reflexivity|].
  apply plays_at_check; [apply plays_toggle_clock | apply IH].
Qed.

Lemma plays_write_byte dev b : plays (write_byte_trace dev b) (write_byte dev b).
Proof. apply plays_write_bits. Qed.

Lemma plays_read_bits dev n : forall i b,
  plays (read_bits_trace dev n) (read_bits dev i n b).
Proof.
  induction n as [|n IH]; intros i b w; [apply plays_at_ret|].
  cbn [read_bits read_bits_trace].
  change (plays_at (EvGetLevel (io_pin dev)
                      :: toggle_clock_trace dev ++ read_bits_trace dev n)
            (void (fun w => snd (gpio_get_level (io_pin dev) w))
               (check (toggle_clock dev)
                  (fun _ => u8 (Z.lor b (Z.shiftl
                     (fst (gpio_get_level (io_pin dev) w)) i)))
                  (fun _ => read_bits dev (i + 1) n
                     (u8 (Z.lor b (Z.shiftl
                        (fst (gpio_get_level (io_pin dev) w)) i)))))) w).
  apply plays_at_silent; try reflexivity.
  apply plays_at_check; [apply plays_toggle_clock | apply IH].
Qed.

Lemma plays_read_byte dev : plays (read_bits_trace dev 8) (read_byte dev).
Proof. apply plays_read_bits. Qed.

Lemma plays_read_register dev reg val :
  plays (read_register_trace dev reg) (read_register dev reg val).
Proof.
  intros w. unfold read_register, read_register_trace.
  apply plays_at_enter.
  apply plays_at_check_mux; [apply plays_prepare|].
  apply plays_at_check_mux; [apply plays_write_byte|].
  apply plays_at_check_mux; [apply plays_prepare|].
  apply plays_at_check_mux; [apply plays_read_byte|].
  apply plays_at_exit.
  apply (plays_at_check [_] []); [apply plays_chip_disable | apply plays_at_ret].
Qed.

Lemma plays_write_register dev reg val :
  plays (write_register_trace dev reg val) (write_register dev reg val).
Proof.
  intros w. unfold write_register, write_register_trace.
  apply plays_at_enter.
  apply plays_at_check_mux; [apply plays_prepare|].
  apply plays_at_check_mux; [apply plays_write_byte|].
  apply plays_at_check_mux; [apply plays_write_byte|].
  apply plays_at_enter. apply plays_chip_disable.
Qed.

Lemma plays_burst_read_loop dev n : forall dst i,
  plays (burst_read_loop_trace dev n) (burst_read_loop dev dst i n).
Proof.
  induction n as [|n IH]; intros dst i w.
  - cbn [burst_read_loop burst_read_loop_trace]. apply plays_at_exit.
    apply (plays_at_check [_] []);
      [apply plays_chip_disable | apply plays_at_ret].
  - cbn [burst_read_loop burst_read_loop_trace].
    apply plays_at_check_mux; [apply plays_read_byte | apply IH].
Qed.

Lemma plays_burst_read dev reg dst len :
  plays (burst_read_trace dev reg len) (burst_read dev reg dst len).
Proof.
  intros w. unfold burst_read, burst_read_trace.
  apply plays_at_enter.
  apply plays_at_check_mux; [apply plays_prepare|].
  apply plays_at_check_mux; [apply plays_write_byte|].
  apply plays_at_check_mux; [apply plays_prepare|].
  apply plays_burst_read_loop.
Qed.

Lemma plays_burst_write_loop dev src n : forall i,
  plays (burst_write_loop_trace dev src i n) (burst_write_loop dev src i n).
Proof.
  induction n as [|n IH]; intros i w.
  - cbn [burst_write_loop burst_write_loop_trace]. apply plays_at_exit.
    apply plays_chip_disable.
  - cbn [burst_write_loop burst_write_loop_trace].
    apply plays_at_check_mux; [apply plays_write_byte | apply IH].
Qed.

Lemma plays_burst_write dev reg src len :
  plays (burst_write_trace dev reg src len) (burst_write dev reg src len).
Proof.
  intros w. unfold burst_write, burst_write_trace.
  apply plays_at_enter.
  apply plays_at_check_mux; [apply plays_prepare|].
  apply plays_at_check_mux; [apply plays_write_byte|].
  apply plays_burst_write_loop.
Qed.

(** *** What a replay can and cannot do *)


Lemma play_ok_complete T : forall rc,
  out_err (play T rc) = ESP_OK -> out_done (play T rc) = T.
Proof.
  induction T as [|ev T IH]; intros rc; [reflexivity|].
  cbn [play]. destruct (fallible ev).
  - destruct (is_ok (hd ESP_OK rc)) eqn:E; cbn [out_err out_done].
    + intros H. f_equal. apply IH. exact H.
    + intros H. rewrite H in E. discriminate E.
  - cbn [out_err out_done]. intros H. f_equal. apply IH. exact H.
Qed.

Lemma play_err_in T : forall rc,
  out_err (play T rc) <> ESP_OK -> In (out_err (play T rc)) rc.
Proof.
  induction T as [|ev T IH]; intros rc; cbn [play].
  - intros H. contradiction H. reflexivity.
  - destruct (fallible ev).
    + destruct (is_ok (hd ESP_OK rc)) eqn:E; cbn [out_err].
      * intros H. apply IH in H. destruct rc; [destruct H | right; exact H].
      * intros _. destruct rc as [|e rc]; [discriminate E | left; reflexivity].
    + cbn [out_err]. apply IH.
Qed.

Lemma play_all_ok T : forall rc,
  Forall (fun e => e = ESP_OK) rc -> out_err (play T rc) = ESP_OK.
Proof.
  induction T as [|ev T IH]; intros rc Hrc; [reflexivity|].
  assert (Htl : Forall (fun e => e = ESP_OK) (tl rc))
    by (destruct Hrc; [constructor | assumption]).
  assert (Hhd : is_ok (hd ESP_OK rc) = true)
    by (destruct Hrc as [|e l He _]; [reflexivity | subst e; reflexivity]).
  cbn [play]. destruct (fallible ev).
  - rewrite Hhd. cbn [out_err]. apply IH. exact Htl.
  - cbn [out_err]. apply IH. exact Hrc.
Qed.

Lemma play_rc_suffix T : forall rc,
  exists n, out_rc (play T rc) = skipn n rc.
Proof.
  induction T as [|ev T IH]; intros rc; [exists O; reflexivity|].
  cbn [play]. destruct (fallible ev).
  - destruct (is_ok (hd ESP_OK rc)); cbn [out_rc].
    + destruct (IH (tl rc)) as [n Hn]. exists (S n). rewrite Hn.
      destruct rc; [destruct n; reflexivity | reflexivity].
    + exists 1%nat. destruct rc; reflexivity.
  - cbn [out_rc]. apply IH.
Qed.

Lemma plays_at_new_events {A} T (m : M A) w :
  plays_at T m w ->
  new_events w (snd (m w)) = out_done (play T (gpio_rc w)).
Proof.
  intros (_ & Ht & _). unfold new_events. rewrite Ht.
  rewrite skipn_app, skipn_all, Nat.sub_diag. reflexivity.
Qed.

(** ** Chip-select on a failed transaction *)



Section HoldsSelect.

Variable dev : ds1302_t.
Hypothesis Hpins : distinct_pins dev.














End HoldsSelect.



(** X1: on every path, failing or not, read_register, write_register,
    burst_read and burst_write behave as the replay of their fixed script
    of platform calls: calls are made in script order, each fallible GPIO
    call takes the next pending result, the first result that is not
    ESP_OK ends the transaction at that call and is the code returned, and
    the results not consumed stay pending. *)
Theorem transactions_replay_scripts dev reg val dst src len :
  plays (read_register_trace dev reg) (read_register dev reg val)
  /\ plays (write_register_trace dev reg val) (write_register dev reg val)
  /\ plays (burst_read_trace dev reg len) (burst_read dev reg dst len)
  /\ plays (burst_write_trace dev reg src len) (burst_write dev reg src len).
Proof.
  split; [apply plays_read_register|].
  split; [apply plays_write_register|].
  split; [apply plays_burst_read | apply plays_burst_write].
Qed.



(** ** The codes the public operations report *)

Lemma scripted_reported {A} (m : M A) w :
  scripted_at m w -> reported_code w (fst (fst (m w))).
Proof.
  intros (T & He & _). unfold reported_code. rewrite He.
  destruct (Z.eq_dec (out_err (play T (gpio_rc w))) ESP_OK) as [E|E].
  - left. exact E.
  - right. right. apply play_err_in. exact E.
Qed.

Lemma scripted_quiet {A} (m : M A) w :
  scripted_at m w -> Forall (fun e => e = ESP_OK) (gpio_rc w) ->
  fst (fst (m w)) = ESP_OK.
Proof.
  intros (T & He & _) Hrc. rewrite He. apply play_all_ok. exact Hrc.
Qed.

Lemma scripted_update_register dev reg mask val w :
  scripted_at (update_register dev reg mask val) w.
Proof.
  unfold update_register. eexists.
  apply plays_at_check; [apply plays_read_register
                        | apply plays_write_register].
Qed.

Lemma scripted_is_running d x w :
  scripted_at (ds1302_is_running (Some d) (Some x)) w.
Proof.
  unfold ds1302_is_running. eexists.
  apply plays_at_check; [apply plays_read_register | apply plays_at_ret].
Qed.

Lemma scripted_init d w : scripted_at (ds1302_init (Some d)) w.
Proof.
  unfold ds1302_init.
  set (mask := Z.lor (Z.lor (GPIO_BIT (ce_pin d)) (GPIO_BIT (io_pin d)))
                     (GPIO_BIT (sclk_pin d))).
  destruct (scripted_is_running
              d false (snd (gpio_config mask GPIO_MODE_OUTPUT w))) as [T HT].
  exists ([EvConfig mask GPIO_MODE_OUTPUT] ++ T ++ []).
  apply plays_at_check; [apply plays_at_platform_call; reflexivity|].
  apply plays_at_check; [exact HT|].
  destruct (snd (fst (ds1302_is_running _ _ _))) as [[d'|] [r|]];
    apply plays_at_ret.
Qed.

Lemma scripted_start d b w : scripted_at (ds1302_start (Some d) b) w.
Proof.
  unfold ds1302_start.
  destruct (scripted_update_register
              d CH_REG CH_MASK (if b then 0 else CH_BIT) w) as [T HT].
  exists (T ++ []). apply plays_at_check; [exact HT | apply plays_at_ret].
Qed.

Lemma scripted_get_write_protect d x w :
  scripted_at (ds1302_get_write_protect (Some d) (Some x)) w.
Proof.
  unfold ds1302_get_write_protect. eexists.
  apply plays_at_check; [apply plays_read_register | apply plays_at_ret].
Qed.

Lemma scripted_get_time d t w :
  scripted_at (ds1302_get_time (Some d) (Some t)) w.
Proof.
  unfold ds1302_get_time. eexists.
  apply plays_at_check; [apply plays_burst_read | apply plays_at_ret].
Qed.

Lemma scripted_set_time d t w :
  scripted_at (ds1302_set_time (Some d) (Some t)) w.
Proof. unfold ds1302_set_time. eexists. apply plays_burst_write. Qed.

Lemma scripted_read_sram ram d offset b len w :
  len <> 0 -> offset + len <= ram ->
  scripted_at (ds1302_read_sram ram (Some d) offset (Some b) len) w.
Proof.
  intros Hl Ho. unfold ds1302_read_sram.
  apply Z.eqb_neq in Hl. apply Z.leb_le in Ho. rewrite Hl, Ho. cbn [negb].
  eexists.
  apply plays_at_check; [apply plays_burst_read | apply plays_at_ret].
Qed.

Lemma scripted_write_sram ram d offset b len w :
  len <> 0 -> offset + len <= ram ->
  scripted_at (ds1302_write_sram ram (Some d) offset (Some b) len) w.
Proof.
  intros Hl Ho. unfold ds1302_write_sram.
  apply Z.eqb_neq in Hl. apply Z.leb_le in Ho. rewrite Hl, Ho. cbn [negb].
  eexists. apply plays_burst_write.
Qed.

Lemma reported_invalid w : reported_code w ESP_ERR_INVALID_ARG.
Proof. right. left. reflexivity. Qed.

(** X3: whatever the arguments and whatever the platform does, each of
    the nine public operations returns ESP_OK, ESP_ERR_INVALID_ARG, or a
    code that a GPIO call of the platform returned: the driver neither
    invents nor rewrites an error code. *)
Theorem public_operations_report_platform_codes
        (DS1302_RAM_SIZE : Z) dev start running wp wpo time offset buf len w :
  reported_code w (fst (fst (ds1302_init dev w)))
  /\ reported_code w (fst (fst (ds1302_start dev start w)))
  /\ reported_code w (fst (fst (ds1302_is_running dev running w)))
  /\ reported_code w (fst (fst (ds1302_set_write_protect dev wp w)))
  /\ reported_code w (fst (fst (ds1302_get_write_protect dev wpo w)))
  /\ reported_code w (fst (fst (ds1302_get_time dev time w)))
  /\ reported_code w (fst (fst (ds1302_set_time dev time w)))
  /\ reported_code
       w (fst (fst (ds1302_read_sram DS1302_RAM_SIZE dev offset buf len w)))
  /\ reported_code
       w (fst (fst (ds1302_write_sram DS1302_RAM_SIZE dev offset buf len w))).
Proof.
  destruct dev as [d|]; [|repeat split; apply reported_invalid].
  split; [apply scripted_reported, scripted_init|].
  split; [apply scripted_reported, scripted_start|].
  split.
  { destruct running; [apply scripted_reported, scripted_is_running
                      | apply reported_invalid]. }
  split; [apply scripted_reported, scripted_update_register|].
  split.
  { destruct wpo; [apply scripted_reported, scripted_get_write_protect
                  | apply reported_invalid]. }
  split.
  { destruct time; [apply scripted_reported, scripted_get_time
                   | apply reported_invalid]. }
  split.
  { destruct time; [apply scripted_reported, scripted_set_time
                   | apply reported_invalid]. }
  destruct buf as [b|]; [|split; apply reported_invalid].
  destruct (Z.eq_dec len 0) as [->|Hl]; [split; apply reported_invalid|].
  destruct (Z_le_gt_dec (offset + len) DS1302_RAM_SIZE) as [Ho|Ho].
  - split; [apply scripted_reported, scripted_read_sram
           | apply scripted_reported, scripted_write_sram]; assumption.
  - unfold ds1302_read_sram, ds1302_write_sram.
    apply Z.eqb_neq in Hl. rewrite Hl.
    replace (offset + len <=? DS1302_RAM_SIZE) with false
      by (symmetry; apply Z.leb_gt; lia).
    split; apply reported_invalid.
Qed.

(** X4: with valid pointers, a non-zero length and a range inside the
    scratch memory, every public operation returns ESP_OK as soon as no
    pending GPIO result is an error: the driver has no failure of its
    own. *)
Theorem public_operations_succeed_without_faults
        (DS1302_RAM_SIZE : Z) d start x wp t offset b len w :
  Forall (fun e => e = ESP_OK) (gpio_rc w) ->
  len <> 0 -> offset + len <= DS1302_RAM_SIZE ->
  fst (fst (ds1302_init (Some d) w)) = ESP_OK
  /\ fst (fst (ds1302_start (Some d) start w)) = ESP_OK
  /\ fst (fst (ds1302_is_running (Some d) (Some x) w)) = ESP_OK
  /\ fst (fst (ds1302_set_write_protect (Some d) wp w)) = ESP_OK
  /\ fst (fst (ds1302_get_write_protect (Some d) (Some x) w)) = ESP_OK
  /\ fst (fst (ds1302_get_time (Some d) (Some t) w)) = ESP_OK
  /\ fst (fst (ds1302_set_time (Some d) (Some t) w)) = ESP_OK
  /\ fst (fst (ds1302_read_sram DS1302_RAM_SIZE (Some d) offset (Some b)
                                len w)) = ESP_OK
  /\ fst (fst (ds1302_write_sram DS1302_RAM_SIZE (Some d) offset (Some b)
                                 len w)) = ESP_OK.
Proof.
  intros Hrc Hl Ho.
  repeat split; apply scripted_quiet; try exact Hrc.
  - apply scripted_init.
  - apply scripted_start.
  - apply scripted_is_running.
  - apply scripted_update_register.
  - apply scripted_get_write_protect.
  - apply scripted_get_time.
  - apply scripted_set_time.
  - apply scripted_read_sram; assumption.
  - apply scripted_write_sram; assumption.
Qed.

Lemma public_operations_succeed_without_faults_witness :
  fst (fst (ds1302_read_sram 31 (Some example_dev) 28 (Some [0; 0; 0]) 3
                             (faulty [0; 0; 0] []))) = ESP_OK.
Proof.
  refine (proj1 (proj2 (proj2 (proj2 (proj2 (proj2 (proj2 (proj2
    (public_operations_succeed_without_faults
       31 example_dev true false true tm_zero 28 [0; 0; 0] 3
       (faulty [0; 0; 0] []) _ _ _))))))))).
  - repeat constructor.
  - discriminate.
  - lia.
Defined.

(** ** The critical section and the public operations *)

Lemma keeps_crit_gpio_config mask mode : keeps_crit (gpio_config mask mode).
Proof. unfold gpio_config. auto with crit. Qed.

#[local] Hint Resolve read_register_balanced burst_read_balanced
  burst_write_balanced keeps_crit_gpio_config : crit.

Lemma keeps_crit_is_running dev running :
  keeps_crit (ds1302_is_running dev running).
Proof.
  unfold ds1302_is_running.
  destruct dev; [destruct running|]; auto with crit.
Qed.

Lemma keeps_crit_init dev : keeps_crit (ds1302_init dev).
Proof.
  unfold ds1302_init. destruct dev; auto with crit.
  apply keeps_crit_check; auto with crit. intros _.
  apply keeps_crit_check; [apply keeps_crit_is_running|].
  intros [[d'|] [r|]]; auto with crit.
Qed.

Lemma keeps_crit_get_write_protect dev wp :
  keeps_crit (ds1302_get_write_protect dev wp).
Proof.
  unfold ds1302_get_write_protect.
  destruct dev; [destruct wp|]; auto with crit.
Qed.

Lemma keeps_crit_get_time dev time : keeps_crit (ds1302_get_time dev time).
Proof.
  unfold ds1302_get_time. destruct dev; [destruct time|]; auto with crit.
Qed.

Lemma keeps_crit_set_time dev time : keeps_crit (ds1302_set_time dev time).
Proof.
  unfold ds1302_set_time. destruct dev; [destruct time|]; auto with crit.
Qed.

Lemma keeps_crit_read_sram ram dev offset buf len :
  keeps_crit (ds1302_read_sram ram dev offset buf len).
Proof.
  unfold ds1302_read_sram. destruct dev; [destruct buf|]; auto with crit.
  destruct (len =? 0); auto with crit.
  destruct (negb (offset + len <=? ram)); auto with crit.
Qed.

Lemma keeps_crit_write_sram ram dev offset buf len :
  keeps_crit (ds1302_write_sram ram dev offset buf len).
Proof.
  unfold ds1302_write_sram. destruct dev; [destruct buf|]; auto with crit.
  destruct (len =? 0); auto with crit.
  destruct (negb (offset + len <=? ram)); auto with crit.
Qed.

Lemma update_register_crit dev reg mask val w a w' :
  update_register dev reg mask val w = (ESP_OK, a, w') ->
  crit w' = S (S (crit w)).
Proof.
  unfold update_register. intros H. peel H.
  apply write_register_ok in H as [_ ->].
  rewrite (crit_of_run _ _ _ _ _ (read_register_balanced _ _ _) Hs).
  reflexivity.
Qed.

(** X5: init, is_running, get_write_protect, get_time, set_time,
    read_sram and write_sram return with the critical section exactly as
    deep as they found it, on every path and for every argument.  The two
    operations built on the masked register update do not: a successful
    start or set_write_protect returns with the section entered twice. *)
Theorem public_critical_section
        (DS1302_RAM_SIZE : Z) dev running wpo time offset buf len w :
  crit (snd (ds1302_init dev w)) = crit w
  /\ crit (snd (ds1302_is_running dev running w)) = crit w
  /\ crit (snd (ds1302_get_write_protect dev wpo w)) = crit w
  /\ crit (snd (ds1302_get_time dev time w)) = crit w
  /\ crit (snd (ds1302_set_time dev time w)) = crit w
  /\ crit (snd (ds1302_read_sram DS1302_RAM_SIZE dev offset buf len w))
     = crit w
  /\ crit (snd (ds1302_write_sram DS1302_RAM_SIZE dev offset buf len w))
     = crit w
  /\ (forall start dev' w',
         ds1302_start dev start w = (ESP_OK, dev', w') ->
         crit w' = S (S (crit w)))
  /\ (forall wp a w',
         ds1302_set_write_protect dev wp w = (ESP_OK, a, w') ->
         crit w' = S (S (crit w))).
Proof.
  split; [apply keeps_crit_init|].
  split; [apply keeps_crit_is_running|].
  split; [apply keeps_crit_get_write_protect|].
  split; [apply keeps_crit_get_time|].
  split; [apply keeps_crit_set_time|].
  split; [apply keeps_crit_read_sram|].
  split; [apply keeps_crit_write_sram|].
  split.
  - intros start dev' w' H. unfold ds1302_start in H.
    destruct dev as [d|]; [|discriminate H].
    peel H. unfold ret in H. inversion H; subst.
    apply update_register_crit in Hs. exact Hs.
  - intros wp a w' H. unfold ds1302_set_write_protect in H.
    destruct dev as [d|]; [|discriminate H].
    apply update_register_crit in H. exact H.
Qed.

Lemma public_critical_section_witness :
  crit (snd (ds1302_start (Some example_dev) true
                          (quiet (bits_of_byte 0x80)))) = 2%nat.
Proof.
  pose (w := quiet (bits_of_byte 0x80)).
  pose (run := ds1302_start (Some example_dev) true w).
  refine (proj1 (proj2 (proj2 (proj2 (proj2 (proj2 (proj2 (proj2
    (public_critical_section 31 (Some example_dev) None None None
                             0 None 0 w))))))))
            true (snd (fst run)) (snd run) _).
  vm_compute. reflexivity.
Defined.

(** ** A failed operation and its out-parameters *)

Lemma check_ret_failed {A B} (x : M A) (out : A -> B) (f : A -> B) w :
  fst (fst (check x out (fun a => ret ESP_OK (f a)) w)) <> ESP_OK ->
  snd (fst (check x out (fun a => ret ESP_OK (f a)) w))
  = out (snd (fst (x w))).
Proof.
  unfold check. destruct (x w) as [[e a] w1].
  destruct (is_ok e); cbn [fst snd ret].
  - intros H. contradiction H. reflexivity.
  - reflexivity.
Qed.

Lemma is_running_failed dev running w :
  fst (fst (ds1302_is_running dev running w)) <> ESP_OK ->
  snd (fst (ds1302_is_running dev running w)) = (dev, running).
Proof.
  unfold ds1302_is_running.
  destruct dev as [d|]; [destruct running as [x|]|]; try reflexivity.
  apply check_ret_failed.
Qed.

(** X6: an operation that does not return ESP_OK leaves the cells it
    could have written as they were: init and start leave the handle (and
    so the cached clock-halt flag) unchanged, is_running leaves the handle
    and *running unchanged, get_write_protect leaves *wp and get_time
    leaves *time unchanged. *)
Theorem failed_operation_keeps_outputs dev start running wpo time w :
  (fst (fst (ds1302_init dev w)) <> ESP_OK ->
   snd (fst (ds1302_init dev w)) = dev)
  /\ (fst (fst (ds1302_start dev start w)) <> ESP_OK ->
      snd (fst (ds1302_start dev start w)) = dev)
  /\ (fst (fst (ds1302_is_running dev running w)) <> ESP_OK ->
      snd (fst (ds1302_is_running dev running w)) = (dev, running))
  /\ (fst (fst (ds1302_get_write_protect dev wpo w)) <> ESP_OK ->
      snd (fst (ds1302_get_write_protect dev wpo w)) = wpo)
  /\ (fst (fst (ds1302_get_time dev time w)) <> ESP_OK ->
      snd (fst (ds1302_get_time dev time w)) = time).
Proof.
  split; [|split; [|split; [|split]]].
  - unfold ds1302_init. destruct dev as [d|]; [|reflexivity].
    unfold check.
    destruct (gpio_config _ _ w) as [[e a] w1].
    destruct (is_ok e); [|reflexivity].
    pose proof (is_running_failed (Some d) (Some false) w1) as Hf.
    destruct (ds1302_is_running (Some d) (Some false) w1) as [[e1 dr] w2].
    cbn [fst snd] in Hf.
    destruct (is_ok e1) eqn:E.
    + destruct dr as [[d'|] [r|]]; cbn [fst snd ret];
        intros H; contradiction H; reflexivity.
    + cbn [fst snd]. intros _. rewrite Hf; [reflexivity|].
      intros ->. discriminate E.
  - unfold ds1302_start. destruct dev as [d|]; [|reflexivity].
    apply (check_ret_failed _ (fun _ => Some d)
                            (fun _ => Some (set_ch d (negb start)))).
  - apply is_running_failed.
  - unfold ds1302_get_write_protect.
    destruct dev as [d|]; [destruct wpo as [x|]|]; try reflexivity.
    apply check_ret_failed.
  - unfold ds1302_get_time.
    destruct dev as [d|]; [destruct time as [t|]|]; try reflexivity.
    apply check_ret_failed.
Qed.

Lemma failed_operation_keeps_outputs_witness :
  fst (fst (ds1302_init (Some example_dev) (faulty [0; 0; 0; 7] [true])))
  = 7
  /\ snd (fst (ds1302_init (Some example_dev) (faulty [0; 0; 0; 7] [true])))
     = Some example_dev.
Proof.
  split; [vm_compute; reflexivity|].
  apply (proj1 (failed_operation_keeps_outputs
                  (Some example_dev) true None None None
                  (faulty [0; 0; 0; 7] [true]))).
  vm_compute. discriminate.
Defined.

(** ** Flags in the top bit of a register *)

Lemma top_bit_update (cur : Z) (set : bool) :
  byte cur ->
  Z.testbit (Z.lor (Z.land cur 127) (if set then 128 else 0)) 7 = set
  /\ Z.land (Z.lor (Z.land cur 127) (if set then 128 else 0)) 127
     = Z.land cur 127.
Proof.
  intros Hc.
  pose (P := fun (set : bool) (z : Z) =>
    let v := Z.lor (Z.land z 127) (if set then 128 else 0) in
    eqb (Z.testbit v 7) set && (Z.land v 127 =? Z.land z 127)).
  assert (H : P set cur = true).
  { apply (forallb_range (P set) 256); [|exact Hc].
    destruct set; vm_compute; reflexivity. }
  unfold P in H. cbv zeta in H. apply andb_true_iff in H as [H1 H2].
  split; [apply eqb_prop; exact H1 | apply Z.eqb_eq; exact H2].
Qed.

Lemma byte_masked (cur mask val : Z) :
  byte cur -> byte val -> byte (Z.lor (Z.land cur mask) val).
Proof.
  intros Hc Hv. rewrite <- (u8_masked cur mask val Hc Hv). apply byte_u8.
Qed.

(** X7: set_write_protect followed by get_write_protect is a round trip.
    When the write-protect register holds cur, a successful
    set_write_protect(wp) reads it with command 0x8f and writes to 0x8e a
    byte whose top bit is wp and whose low seven bits are those of cur;
    a chip that stores this byte answers the next successful
    get_write_protect with wp. *)
Theorem write_protect_roundtrip d wp cur rest w a w1 x w2 rest2 wp' w3 :
  distinct_pins d -> byte cur ->
  io_level w = bits_of_byte cur ++ rest ->
  ds1302_set_write_protect (Some d) wp w = (ESP_OK, a, w1) ->
  io_level w2
  = bits_of_byte (nth 2 (wire_bytes d (new_events w w1)) 0) ++ rest2 ->
  ds1302_get_write_protect (Some d) (Some x) w2 = (ESP_OK, wp', w3) ->
  wp' = Some wp
  /\ firstn 2 (wire_bytes d (new_events w w1)) = [0x8f; 0x8e]
  /\ Z.land (nth 2 (wire_bytes d (new_events w w1)) 0) 0x7f
     = Z.land cur 0x7f.
Proof.
  intros Hp Hc Hio Hset Hio2 Hget.
  unfold ds1302_set_write_protect in Hset.
  assert (Hv : byte (if wp then WP_BIT else 0))
    by (destruct wp; unfold byte, WP_BIT; simpl; lia).
  assert (Hreg : byte WP_REG) by (unfold byte, WP_REG; lia).
  rewrite (update_register_wire d WP_REG WP_MASK _ cur rest w a w1
             Hp Hreg Hv Hc Hio Hset) in *.
  cbn [nth firstn] in *.
  destruct (top_bit_update cur wp Hc) as [Hb Hl].
  assert (Hw : byte (Z.lor (Z.land cur WP_MASK) (if wp then WP_BIT else 0)))
    by (apply byte_masked; assumption).
  rewrite (get_write_protect_ok _ _ _ _ _ _ _ Hw Hio2 Hget).
  split; [f_equal; exact Hb|]. split; [reflexivity | exact Hl].
Qed.

Lemma write_protect_roundtrip_witness :
  let w := quiet (bits_of_byte 0x35) in
  let w1 := snd (ds1302_set_write_protect (Some example_dev) true w) in
  let sent := wire_bytes example_dev (new_events w w1) in
  snd (fst (ds1302_get_write_protect
              (Some example_dev) (Some false)
              (quiet (bits_of_byte (nth 2 sent 0))))) = Some true.
Proof.
  intros w w1 sent.
  pose (w2 := quiet (bits_of_byte (nth 2 sent 0))).
  pose (run := ds1302_get_write_protect (Some example_dev) (Some false) w2).
  assert (Hc : byte 0x35) by (unfold byte; lia).
  refine (proj1 (write_protect_roundtrip
                   example_dev true 0x35 [] w tt w1 false w2 []
                   (snd (fst run)) (snd run) example_dev_pins Hc _ _ _ _)).
  - symmetry. apply app_nil_r.
  - vm_compute. reflexivity.
  - symmetry. apply app_nil_r.
  - vm_compute. reflexivity.
Defined.

(** X8: start followed by is_running is a round trip.  When the seconds
    register holds cur, a successful start(s) writes back a byte whose
    clock-halt bit is not s and whose low seven bits, the seconds count,
    are those of cur; a chip that stores this byte answers the next
    successful is_running with s, and the cached flag stays what start
    made it. *)
Theorem start_is_running_roundtrip
        d s cur rest w dev1 w1 x w2 rest2 dev2 run w3 :
  distinct_pins d -> byte cur ->
  io_level w = bits_of_byte cur ++ rest ->
  ds1302_start (Some d) s w = (ESP_OK, dev1, w1) ->
  io_level w2
  = bits_of_byte (nth 2 (wire_bytes d (new_events w w1)) 0) ++ rest2 ->
  ds1302_is_running dev1 (Some x) w2 = (ESP_OK, (dev2, run), w3) ->
  run = Some s
  /\ dev1 = Some (set_ch d (negb s))
  /\ dev2 = dev1
  /\ Z.land (nth 2 (wire_bytes d (new_events w w1)) 0) 0x7f
     = Z.land cur 0x7f.
Proof.
  intros Hp Hc Hio Hst Hio2 Hrun.
  unfold ds1302_start in Hst. peel Hst.
  unfold ret in Hst. inversion Hst; subst. clear Hst.
  assert (Hv : byte (if s then 0 else CH_BIT))
    by (destruct s; unfold byte, CH_BIT; simpl; lia).
  assert (Hreg : byte CH_REG) by (unfold byte, CH_REG; lia).
  rewrite (update_register_wire d CH_REG CH_MASK _ cur rest w a w1
             Hp Hreg Hv Hc Hio Hs) in *.
  cbn [nth] in *.
  destruct (top_bit_update cur (negb s) Hc) as [Hb Hl].
  assert (E : (if s then 0 else CH_BIT) = (if negb s then 128 else 0))
    by (destruct s; reflexivity).
  rewrite E in *.
  assert (Hw : byte (Z.lor (Z.land cur CH_MASK) (if negb s then 128 else 0)))
    by (apply byte_masked; [exact Hc | exact Hv]).
  destruct (is_running_ok _ _ _ _ _ _ _ _ Hw Hio2 Hrun) as [-> ->].
  change (Z.land cur CH_MASK) with (Z.land cur 127).
  rewrite Hb, negb_involutive.
  split; [reflexivity|]. split; [reflexivity|].
  split; [reflexivity | exact Hl].
Qed.

Lemma start_is_running_roundtrip_witness :
  let w := quiet (bits_of_byte 0xd9) in
  let run1 := ds1302_start (Some example_dev) true w in
  let sent := wire_bytes example_dev (new_events w (snd run1)) in
  snd (snd (fst (ds1302_is_running
                   (snd (fst run1)) (Some false)
                   (quiet (bits_of_byte (nth 2 sent 0)))))) = Some true.
Proof.
  intros w run1 sent.
  pose (w2 := quiet (bits_of_byte (nth 2 sent 0))).
  pose (run2 := ds1302_is_running (snd (fst run1)) (Some false) w2).
  assert (Hc : byte 0xd9) by (unfold byte; lia).
  refine (proj1 (start_is_running_roundtrip
                   example_dev true 0xd9 [] w (snd (fst run1)) (snd run1)
                   false w2 [] (fst (snd (fst run2))) (snd (snd (fst run2)))
                   (snd run2) example_dev_pins Hc _ _ _ _)).
  - symmetry. apply app_nil_r.
  - vm_compute. reflexivity.
  - symmetry. apply app_nil_r.
  - vm_compute. reflexivity.
Defined.

(** ** Initialisation *)

Lemma plays_init d :
  plays (EvConfig (Z.lor (Z.lor (GPIO_BIT (ce_pin d)) (GPIO_BIT (io_pin d)))
                         (GPIO_BIT (sclk_pin d))) GPIO_MODE_OUTPUT
           :: read_register_trace d CH_REG)
        (ds1302_init (Some d)).
Proof.
  intros w. unfold ds1302_init.
  apply (plays_at_check [_] _); [apply plays_at_platform_call; reflexivity|].
  rewrite <- (app_nil_r (read_register_trace d CH_REG)).
  apply plays_at_check.
  - unfold ds1302_is_running.
    rewrite <- (app_nil_r (read_register_trace d CH_REG)).
    apply plays_at_check; [apply plays_read_register | apply plays_at_ret].
  - destruct (snd (fst (ds1302_is_running _ _ _))) as [[d'|] [r|]];
      apply plays_at_ret.
Qed.

Lemma play_first ev T rc :
  fallible ev = true -> hd_error (out_done (play (ev :: T) rc)) = Some ev.
Proof.
  intros Hf. cbn [play]. rewrite Hf.
  destruct (is_ok (hd ESP_OK rc)); reflexivity.
Qed.

Lemma GPIO_BIT_testbit (pin i : Z) :
  0 <= pin < 64 -> Z.testbit (GPIO_BIT pin) i = (i =? pin).
Proof.
  intros Hp. unfold GPIO_BIT.
  rewrite Z.shiftl_1_l, Z.mod_small.
  - rewrite Z.pow2_bits_eqb by lia. apply Z.eqb_sym.
  - split; [apply Z.pow_nonneg; lia | apply Z.pow_lt_mono_r; lia].
Qed.

(** X9: whatever happens afterwards, the first platform call of init is
    gpio_config in output mode with a pin mask whose set bits are exactly
    the chip-enable, data and clock pins of the handle (pins 0 to 63).
    When init succeeds, the only byte it drives onto the data line is the
    read command 0x81 of the seconds register: init never writes to the
    chip. *)
Theorem init_configures_three_outputs d w :
  0 <= ce_pin d < 64 -> 0 <= io_pin d < 64 -> 0 <= sclk_pin d < 64 ->
  exists mask,
    hd_error (new_events w (snd (ds1302_init (Some d) w)))
    = Some (EvConfig mask GPIO_MODE_OUTPUT)
    /\ (forall i, Z.testbit mask i
                  = (i =? ce_pin d) || (i =? io_pin d) || (i =? sclk_pin d))
    /\ (distinct_pins d ->
        fst (fst (ds1302_init (Some d) w)) = ESP_OK ->
        wire_bytes d (new_events w (snd (ds1302_init (Some d) w))) = [0x81]).
Proof.
  intros Hce Hio Hsclk.
  exists (Z.lor (Z.lor (GPIO_BIT (ce_pin d)) (GPIO_BIT (io_pin d)))
                (GPIO_BIT (sclk_pin d))).
  pose proof (plays_init d w) as Hplay.
  rewrite (plays_at_new_events _ _ _ Hplay).
  split; [apply play_first; reflexivity|]. split.
  - intros i. rewrite !Z.lor_spec, !GPIO_BIT_testbit by assumption.
    reflexivity.
  - intros Hp Hok. destruct Hplay as (He & _).
    rewrite He in Hok. rewrite (play_ok_complete _ _ Hok).
    change (wire_bytes d (read_register_trace d CH_REG) = [0x81]).
    rewrite wire_bytes_read_register by exact Hp. reflexivity.
Qed.

Lemma init_configures_three_outputs_witness :
  exists mask,
    hd_error (new_events (quiet [])
                         (snd (ds1302_init (Some example_dev) (quiet []))))
    = Some (EvConfig mask GPIO_MODE_OUTPUT)
    /\ Z.testbit mask 6 = true /\ Z.testbit mask 4 = false.
Proof.
  assert (H5 : 0 <= 5 < 64) by lia.
  assert (H6 : 0 <= 6 < 64) by lia.
  assert (H7 : 0 <= 7 < 64) by lia.
  destruct (init_configures_three_outputs example_dev (quiet []) H5 H6 H7)
    as (mask & Hhd & Hbits & _).
  exists mask. split; [exact Hhd|].
  rewrite !Hbits. split; reflexivity.
Defined.

(** ** Scratch memory *)

Lemma length_bits_of_bytes (bs : list Z) :
  length (bits_of_bytes bs) = (8 * length bs)%nat.
Proof.
  induction bs as [|b bs IH]; [reflexivity|].
  unfold bits_of_bytes in *. cbn [flat_map]. rewrite length_app, IH.
  rewrite bits_of_byte_cons. cbn [length]. lia.
Qed.

Lemma fetched_firstn (src : list Z) : forall n,
  (n <= length src)%nat -> fetched src 0 n = firstn n src.
Proof.
  unfold fetched. induction src as [|h t IH]; intros n Hn.
  - destruct n; [reflexivity | simpl in Hn; lia].
  - destruct n as [|n]; [reflexivity|].
    cbn [seq map nth firstn]. f_equal.
    rewrite <- seq_shift, map_map. apply IH. simpl in Hn. lia.
Qed.

Lemma Forall_byte_firstn (l : list Z) : forall n,
  Forall byte l -> Forall byte (firstn n l).
Proof.
  induction l as [|h t IH]; intros n Hl.
  - destruct n; constructor.
  - destruct n as [|n]; [constructor|].
    inversion Hl; subst. cbn [firstn]. constructor; [assumption|].
    apply IH. assumption.
Qed.

Lemma io_levels_burst_read_loop dev n :
  distinct_pins dev -> io_levels dev (burst_read_loop_trace dev n) = [].
Proof.
  intros Hp. induction n as [|n IH].
  - apply io_levels_chip_disable. exact Hp.
  - cbn [burst_read_loop_trace].
    rewrite io_levels_app, io_levels_read_bits, IH by exact Hp. reflexivity.
Qed.

Lemma wire_bytes_burst_read dev reg len :
  distinct_pins dev ->
  wire_bytes dev (burst_read_trace dev reg len) = [u8 (Z.lor reg 0x01)].
Proof.
  intros Hp. unfold wire_bytes, burst_read_trace.
  rewrite !io_levels_app, !io_levels_prepare, io_levels_write_byte,
    io_levels_burst_read_loop by exact Hp.
  simpl app. rewrite ?app_nil_r.
  apply bytes_of_levels_one. apply byte_u8.
Qed.

Lemma read_sram_ok ram d offset buf len bs rest w buf' w' :
  Forall byte bs -> length bs = Z.to_nat len ->
  (length bs <= length buf)%nat ->
  io_level w = bits_of_bytes bs ++ rest ->
  ds1302_read_sram ram (Some d) offset (Some buf) len w = (ESP_OK, buf', w') ->
  buf' = Some (bs ++ skipn (length bs) buf)
  /\ io_level w' = rest
  /\ new_events w w' = burst_read_trace d RAM_BURST len.
Proof.
  intros Hbs Hlen Hfit Hio H. unfold ds1302_read_sram in H.
  destruct (len =? 0); [discriminate H|].
  destruct (negb (offset + len <=? ram)); [discriminate H|].
  peel H. unfold ret in H. inversion H; subst. clear H.
  apply burst_read_ok in Hs as [Hs ->].
  split; [|split].
  - rewrite Hio, <- Hlen.
    rewrite sample_bytes_spec by (auto; simpl; lia). reflexivity.
  - destruct Hs as [_ ->]. rewrite Hio, <- Hlen.
    rewrite <- length_bits_of_bytes.
    rewrite skipn_app, skipn_all, Nat.sub_diag. reflexivity.
  - apply (steps_new_events _ _ _ _ Hs).
Qed.

Lemma write_sram_wire ram d offset buf len w a w' :
  distinct_pins d -> Forall byte buf -> (Z.to_nat len <= length buf)%nat ->
  ds1302_write_sram ram (Some d) offset (Some buf) len w = (ESP_OK, a, w') ->
  wire_bytes d (new_events w w') = RAM_BURST :: firstn (Z.to_nat len) buf.
Proof.
  intros Hp Hb Hfit H. unfold ds1302_write_sram in H.
  destruct (len =? 0); [discriminate H|].
  destruct (negb (offset + len <=? ram)); [discriminate H|].
  apply burst_write_ok in H. rewrite (steps_new_events _ _ _ _ H).
  assert (Hr : byte RAM_BURST) by (unfold byte, RAM_BURST; lia).
  rewrite (wire_bytes_burst_write d Hp _ _ _ Hr Hb).
  rewrite fetched_firstn by exact Hfit. reflexivity.
Qed.

(** X10: a successful read_sram of len bytes into a buffer of at least
    that size replaces the first len bytes of the buffer by the bytes the
    chip sends and leaves the rest of the buffer as it was; it samples
    exactly 8 * len levels, and the only byte it drives onto the data line
    is the burst-read command 0xff. *)
Theorem read_sram_fills_buffer_prefix
        (DS1302_RAM_SIZE : Z) d offset buf len bs rest w buf' w' :
  distinct_pins d -> Forall byte bs -> length bs = Z.to_nat len ->
  (length bs <= length buf)%nat ->
  io_level w = bits_of_bytes bs ++ rest ->
  ds1302_read_sram DS1302_RAM_SIZE (Some d) offset (Some buf) len w
  = (ESP_OK, buf', w') ->
  buf' = Some (bs ++ skipn (length bs) buf)
  /\ io_level w' = rest
  /\ wire_bytes d (new_events w w') = [0xff].
Proof.
  intros Hp Hbs Hlen Hfit Hio H.
  destruct (read_sram_ok _ _ _ _ _ _ _ _ _ _ Hbs Hlen Hfit Hio H)
    as (Hb & Hr & Hev).
  split; [exact Hb|]. split; [exact Hr|].
  rewrite Hev, wire_bytes_burst_read by exact Hp. reflexivity.
Qed.

Lemma read_sram_fills_buffer_prefix_witness :
  snd (fst (ds1302_read_sram 31 (Some example_dev) 4 (Some [1; 2; 3; 4]) 2
                             (quiet (bits_of_bytes [0xaa; 0xbb]))))
  = Some [0xaa; 0xbb; 3; 4].
Proof.
  pose (w := quiet (bits_of_bytes [0xaa; 0xbb])).
  pose (run := ds1302_read_sram 31 (Some example_dev) 4 (Some [1; 2; 3; 4])
                                2 w).
  assert (Hbs : Forall byte [0xaa; 0xbb])
    by (repeat constructor; unfold byte; lia).
  refine (proj1 (read_sram_fills_buffer_prefix
                   31 example_dev 4 [1; 2; 3; 4] 2 [0xaa; 0xbb] [] w
                   (snd (fst run)) (snd run)
                   example_dev_pins Hbs eq_refl _ _ _)).
  - simpl. lia.
  - symmetry. apply app_nil_r.
  - vm_compute. reflexivity.
Defined.

(** X11: a successful write_sram of len bytes from a buffer of at least
    that size puts on the wire the burst-write command 0xfe followed by
    exactly the first len bytes of the buffer, in order. *)
Theorem write_sram_sends_buffer_prefix
        (DS1302_RAM_SIZE : Z) d offset buf len w a w' :
  distinct_pins d -> Forall byte buf -> (Z.to_nat len <= length buf)%nat ->
  ds1302_write_sram DS1302_RAM_SIZE (Some d) offset (Some buf) len w
  = (ESP_OK, a, w') ->
  wire_bytes d (new_events w w') = 0xfe :: firstn (Z.to_nat len) buf.
Proof. apply write_sram_wire. Qed.

Lemma write_sram_sends_buffer_prefix_witness :
  wire_bytes example_dev
    (new_events (quiet [])
       (snd (ds1302_write_sram 31 (Some example_dev) 7 (Some [9; 8; 7]) 2
                               (quiet []))))
  = [0xfe; 9; 8].
Proof.
  pose (run := ds1302_write_sram 31 (Some example_dev) 7 (Some [9; 8; 7]) 2
                                 (quiet [])).
  assert (Hb : Forall byte [9; 8; 7])
    by (repeat constructor; unfold byte; lia).
  refine (write_sram_sends_buffer_prefix
            31 example_dev 7 [9; 8; 7] 2 (quiet []) (snd (fst run)) (snd run)
            example_dev_pins Hb _ _).
  - simpl. lia.
  - vm_compute. reflexivity.
Defined.

(** X12: scratch memory round trip.  When write_sram succeeds and the
    chip then answers a read_sram of the same length with the data bytes
    that write_sram put on the wire, a successful read_sram returns those
    bytes, followed by the untouched rest of its buffer.  The two offsets
    need not agree. *)
Theorem sram_write_read_roundtrip
        (DS1302_RAM_SIZE : Z) d o1 o2 data buf len w a w1 w2 rest buf' w3 :
  distinct_pins d -> Forall byte data ->
  (Z.to_nat len <= length data)%nat -> (Z.to_nat len <= length buf)%nat ->
  ds1302_write_sram DS1302_RAM_SIZE (Some d) o1 (Some data) len w
  = (ESP_OK, a, w1) ->
  io_level w2
  = bits_of_bytes (tl (wire_bytes d (new_events w w1))) ++ rest ->
  ds1302_read_sram DS1302_RAM_SIZE (Some d) o2 (Some buf) len w2
  = (ESP_OK, buf', w3) ->
  buf' = Some (firstn (Z.to_nat len) data ++ skipn (Z.to_nat len) buf).
Proof.
  intros Hp Hd Hfd Hfb Hwr Hio Hrd.
  rewrite (write_sram_wire _ _ _ _ _ _ _ _ Hp Hd Hfd Hwr) in Hio.
  cbn [tl] in Hio.
  assert (Hlen : length (firstn (Z.to_nat len) data) = Z.to_nat len)
    by (apply firstn_length_le; exact Hfd).
  assert (Hbs : Forall byte (firstn (Z.to_nat len) data))
    by (apply Forall_byte_firstn; exact Hd).
  destruct (read_sram_ok _ _ _ _ _ _ rest _ _ _ Hbs Hlen
                         ltac:(rewrite Hlen; exact Hfb) Hio Hrd)
    as (-> & _).
  rewrite Hlen. reflexivity.
Qed.

Lemma sram_write_read_roundtrip_witness :
  let w := quiet [] in
  let w1 := snd (ds1302_write_sram 31 (Some example_dev) 5
                                   (Some [0x11; 0x22; 0x33]) 3 w) in
  let w2 := quiet (bits_of_bytes
                     (tl (wire_bytes example_dev (new_events w w1)))) in
  snd (fst (ds1302_read_sram 31 (Some example_dev) 0 (Some [0; 0; 0; 0]) 3
                             w2))
  = Some [0x11; 0x22; 0x33; 0].
Proof.
  intros w w1 w2.
  pose (run := ds1302_read_sram 31 (Some example_dev) 0 (Some [0; 0; 0; 0])
                                3 w2).
  assert (Hd : Forall byte [0x11; 0x22; 0x33])
    by (repeat constructor; unfold byte; lia).
  refine (sram_write_read_roundtrip
            31 example_dev 5 0 [0x11; 0x22; 0x33] [0; 0; 0; 0] 3
            w tt w1 w2 [] (snd (fst run)) (snd run)
            example_dev_pins Hd _ _ _ _ _).
  - simpl. lia.
  - simpl. lia.
  - vm_compute. reflexivity.
  - symmetry. apply app_nil_r.
  - vm_compute. reflexivity.
Defined.

(** ** The bit transport *)

Lemma driven_level_testbit (b i : Z) :
  0 <= i -> negb (Z.land (Z.shiftr b i) 1 =? 0) = Z.testbit b i.
Proof.
  intros Hi.
  change 1 with (Z.ones 1). rewrite Z.land_ones by lia.
  change (2 ^ 1) with 2. rewrite Zmod_odd.
  rewrite <- Z.bit0_odd, Z.shiftr_spec by lia.
  rewrite Z.add_0_l. destruct (Z.testbit b i); reflexivity.
Qed.

Lemma sampled_byte_levels (b : Z) (n : nat) : forall i,
  0 <= i ->
  sampled (byte_levels b i n)
  = map (fun j => Z.testbit b (i + Z.of_nat j)) (seq 0 n).
Proof.
  induction n as [|n IH]; intros i Hi; [reflexivity|].
  cbn [byte_levels sampled map seq].
  rewrite driven_level_testbit by exact Hi.
  rewrite Z.add_0_r. f_equal.
  fold (sampled (byte_levels b (i + 1) n)).
  rewrite IH by lia. rewrite <- seq_shift, map_map.
  apply map_ext. intros j. f_equal. lia.
Qed.

(** X13: the bit transport is its own inverse.  A successful write_byte
    of b drives the eight bits of b on the data line least significant
    first, and a successful read_byte that samples those eight levels
    returns b and consumes exactly them. *)
Theorem write_byte_read_byte_roundtrip d d' b w a w1 w2 rest v w3 :
  distinct_pins d -> byte b ->
  write_byte d b w = (ESP_OK, a, w1) ->
  io_level w2 = sampled (io_levels d (new_events w w1)) ++ rest ->
  read_byte d' w2 = (ESP_OK, v, w3) ->
  v = b
  /\ io_levels d (new_events w w1) = byte_levels b 0 8
  /\ io_level w3 = rest.
Proof.
  intros Hp Hb Hwr Hio Hrd.
  apply write_byte_ok in Hwr. rewrite (steps_new_events _ _ _ _ Hwr) in *.
  rewrite io_levels_write_byte in * by exact Hp.
  rewrite sampled_byte_levels in Hio by lia.
  change (map (fun j => Z.testbit b (0 + Z.of_nat j)) (seq 0 8))
    with (bits_of_byte b) in Hio.
  apply read_byte_ok in Hrd as [[_ Hrest] ->].
  rewrite Hio in *. rewrite sample_bits_byte by exact Hb.
  split; [reflexivity|]. split; [reflexivity|].
  rewrite Hrest. apply skipn_bits_of_byte.
Qed.

Lemma write_byte_read_byte_roundtrip_witness :
  let w1 := snd (write_byte example_dev 0xa5 (quiet [])) in
  let w2 := quiet (sampled (io_levels example_dev
                                      (new_events (quiet []) w1))) in
  snd (fst (read_byte example_dev w2)) = 0xa5.
Proof.
  intros w1 w2.
  pose (run := read_byte example_dev w2).
  assert (Hb : byte 0xa5) by (unfold byte; lia).
  refine (proj1 (write_byte_read_byte_roundtrip
                   example_dev example_dev 0xa5 (quiet []) tt w1 w2 []
                   (snd (fst run)) (snd run) example_dev_pins Hb _ _ _)).
  - vm_compute. reflexivity.
  - symmetry. apply app_nil_r.
  - vm_compute. reflexivity.
Defined.

(** ** The BCD codec on register values *)

Lemma bcd_betweenb_spec lo hi b :
  bcd_betweenb lo hi b = true -> bcd_between lo hi b.
Proof.
  unfold bcd_betweenb, bcd_between, valid_bcd, byte.
  rewrite !andb_true_iff, !Z.leb_le, Z.ltb_lt. tauto.
Qed.

Lemma bcd2dec_value (b : Z) : byte b -> bcd2dec b = bcd_value b.
Proof.
  intros Hb. apply Z.eqb_eq.
  apply (forallb_range (fun z => bcd2dec z =? bcd_value z) 256);
    [vm_compute; reflexivity | exact Hb].
Qed.

(** X14: on a byte holding two decimal digits, bcd2dec yields a value
    between 0 and 99 and dec2bcd gives the byte back; with the round trip
    in the other direction, the two conversions are inverse bijections
    between 0..99 and the two-digit BCD bytes. *)
Theorem dec2bcd_bcd2dec (b : Z) :
  valid_bcd b -> 0 <= bcd2dec b <= 99 /\ dec2bcd (bcd2dec b) = b.
Proof.
  intros (Hb & Hh & Hl).
  pose (P := fun z =>
    implb ((z / 16 <=? 9) && (z mod 16 <=? 9))
          ((0 <=? bcd2dec z) && (bcd2dec z <=? 99)
           && (dec2bcd (bcd2dec z) =? z))).
  assert (H : P b = true)
    by (apply (forallb_range P 256); [vm_compute; reflexivity | exact Hb]).
  unfold P in H.
  apply Z.leb_le in Hh, Hl. rewrite Hh, Hl in H. cbn [andb implb] in H.
  rewrite !andb_true_iff, !Z.leb_le, Z.eqb_eq in H. tauto.
Qed.

Lemma dec2bcd_bcd2dec_witness :
  0 <= bcd2dec 0x59 <= 99 /\ dec2bcd (bcd2dec 0x59) = 0x59.
Proof.
  apply (dec2bcd_bcd2dec 0x59).
  unfold valid_bcd, byte. repeat split; vm_compute; congruence.
Defined.

(** ** Calendar ranges *)

Lemma bcd_between_decode lo hi b :
  bcd_between lo hi b -> lo <= bcd2dec b <= hi.
Proof.
  intros ((Hb & _) & Hv). rewrite bcd2dec_value by exact Hb. exact Hv.
Qed.

Lemma decode_hour_range (h : Z) :
  valid_hour_register h -> 0 <= decode_hour h <= 23.
Proof.
  intros (Hb & Hv). unfold decode_hour.
  unfold HOUR12_BIT. rewrite top_bit_test by exact Hb.
  rewrite negb_involutive.
  destruct (Z.testbit h 7).
  - apply bcd_between_decode in Hv.
    destruct (negb (Z.land h PM_BIT =? 0)); lia.
  - apply bcd_between_decode in Hv. exact Hv.
Qed.

(** X15: when the seven clock registers the chip sends hold calendar
    values in the chip's ranges (in 12-hour or in 24-hour mode, clock
    halted or not), a successful get_time fills the time record with
    seconds and minutes in 0..59, hour in 0..23, day of month in 1..31,
    month in 0..11, weekday in 0..6 and year in 2000..2099. *)
Theorem get_time_fields_in_range d t0 w regs rest t2 w3 :
  valid_clock_registers regs ->
  io_level w = bits_of_bytes regs ++ rest ->
  ds1302_get_time (Some d) (Some t0) w = (ESP_OK, t2, w3) ->
  exists t, t2 = Some t /\ tm_in_range t.
Proof.
  intros (Hlen & Hb0 & Hs & Hm & Hh & Hd & Hmo & Hw & Hy) Hio H.
  assert (Hbs : Forall byte regs).
  { do 8 (destruct regs as [|? regs]; try discriminate Hlen).
    cbn [nth] in *.
    destruct Hm as ((? & _) & _), Hh as (? & _), Hd as ((? & _) & _),
             Hmo as ((? & _) & _), Hw as ((? & _) & _), Hy as ((? & _) & _).
    repeat (constructor; [assumption|]). constructor. }
  exists (decode_time regs t0).
  split; [apply (get_time_ok _ _ _ _ _ _ _ Hbs Hlen Hio H)|].
  apply bcd_between_decode in Hs, Hm, Hd, Hmo, Hw, Hy.
  apply decode_hour_range in Hh.
  unfold tm_in_range, decode_time. cbn [tm_sec tm_min tm_hour tm_mday tm_mon
                                         tm_wday tm_year].
  lia.
Qed.

Lemma get_time_fields_in_range_witness :
  exists t,
    snd (read_back example_dev [0xd9; 0x58; 0xb2; 0x31; 0x12; 0x07; 0x99]
                   tm_zero) = Some t
    /\ tm_in_range t.
Proof.
  pose (regs := [0xd9; 0x58; 0xb2; 0x31; 0x12; 0x07; 0x99]).
  pose (w := quiet (bits_of_bytes regs)).
  pose (run := ds1302_get_time (Some example_dev) (Some tm_zero) w).
  refine (get_time_fields_in_range example_dev tm_zero w regs []
            (snd (fst run)) (snd run) _ _ _).
  - unfold valid_clock_registers. subst regs. cbn [nth].
    split; [reflexivity|]. split; [unfold byte; lia|].
    do 2 (split; [apply bcd_betweenb_spec; vm_compute; reflexivity|]).
    split.
    { split; [unfold byte; lia|].
      change (Z.testbit 178 7) with true. cbv iota.
      apply bcd_betweenb_spec. vm_compute. reflexivity. }
    do 3 (split; [apply bcd_betweenb_spec; vm_compute; reflexivity|]).
    apply bcd_betweenb_spec. vm_compute. reflexivity.
  - symmetry. apply app_nil_r.
  - vm_compute. reflexivity.
Defined.

Lemma encoded_field (lo hi : Z) (f : Z -> Z) (n : nat) :
  forallb (fun x => bcd_betweenb lo hi (dec2bcd (u8 (f x))))
          (map Z.of_nat (seq 0 n)) = true ->
  forall x, 0 <= x < Z.of_nat n -> bcd_between lo hi (dec2bcd (u8 (f x))).
Proof.
  intros H x Hx. apply bcd_betweenb_spec.
  apply (forallb_range
           (fun x => bcd_betweenb lo hi (dec2bcd (u8 (f x)))) n H x Hx).
Qed.

Lemma encoded_seconds (h : bool) (s : Z) :
  0 <= s <= 59 ->
  bcd_between 0 59
    (Z.land (u8 (Z.lor (dec2bcd (u8 s)) (if h then CH_BIT else 0)))
            SECONDS_MASK).
Proof.
  intros Hs. apply bcd_betweenb_spec.
  apply (forallb_range
           (fun s => bcd_betweenb 0 59
              (Z.land (u8 (Z.lor (dec2bcd (u8 s)) (if h then CH_BIT else 0)))
                      SECONDS_MASK)) 60);
    [destruct h; vm_compute; reflexivity | lia].
Qed.

Lemma encoded_hour (h : Z) :
  0 <= h <= 23 ->
  Z.testbit (dec2bcd (u8 h)) 7 = false
  /\ bcd_between 0 23 (Z.land (dec2bcd (u8 h)) HOUR24_MASK).
Proof.
  intros Hh.
  pose (P := fun h =>
    negb (Z.testbit (dec2bcd (u8 h)) 7)
    && bcd_betweenb 0 23 (Z.land (dec2bcd (u8 h)) HOUR24_MASK)).
  assert (H : P h = true)
    by (apply (forallb_range P 24); [vm_compute; reflexivity | lia]).
  unfold P in H. apply andb_true_iff in H as [H1 H2].
  split; [apply negb_true_iff; exact H1 | apply bcd_betweenb_spec; exact H2].
Qed.

(** X16: for a time record in the ranges of struct tm (months and
    weekdays from 0, year 2000..2099), the seven time bytes a successful
    set_time puts on the wire are well-formed chip registers: two decimal
    digits each, seconds and minutes 0-59, date 1-31, month 1-12, day of
    week 1-7, year 0-99, and an hour 0-23 with the 12-hour bit clear, so
    set_time always leaves the chip in 24-hour mode. *)
Theorem set_time_writes_valid_registers d t w a w1 :
  distinct_pins d -> tm_in_range t ->
  ds1302_set_time (Some d) (Some t) w = (ESP_OK, a, w1) ->
  valid_clock_registers (firstn 7 (tl (wire_bytes d (new_events w w1))))
  /\ Z.testbit (nth 3 (wire_bytes d (new_events w w1)) 0) 7 = false.
Proof.
  intros Hp (Hs & Hm & Hh & Hd & Hmo & Hw & Hy) Hset.
  rewrite (set_time_wire _ _ _ _ _ Hp Hset).
  unfold encode_time. cbn [tl firstn nth].
  destruct (encoded_hour _ Hh) as [Hbit Hhour].
  split; [|exact Hbit].
  unfold valid_clock_registers. cbn [nth length].
  split; [reflexivity|]. split; [apply byte_u8|].
  split; [apply encoded_seconds; exact Hs|].
  split.
  { apply (encoded_field 0 59 (fun x => x) 60);
      [vm_compute; reflexivity | lia]. }
  split.
  { split; [apply byte_u8|]. rewrite Hbit. exact Hhour. }
  split.
  { replace (tm_mday t) with (tm_mday t - 1 + 1) by lia.
    apply (encoded_field 1 31 (fun x => x + 1) 31);
      [vm_compute; reflexivity | lia]. }
  split.
  { apply (encoded_field 1 12 (fun x => x + 1) 12);
      [vm_compute; reflexivity | lia]. }
  split.
  { apply (encoded_field 1 7 (fun x => x + 1) 7);
      [vm_compute; reflexivity | lia]. }
  apply (encoded_field 0 99 (fun x => x) 100 eq_refl (tm_year t - 2000)).
  lia.
Qed.

Lemma set_time_writes_valid_registers_witness :
  let w1 := snd (ds1302_set_time (Some example_dev)
                                 (Some (mk_tm 59 58 23 31 11 2099 6 364 0))
                                 (quiet [])) in
  Z.testbit (nth 3 (wire_bytes example_dev (new_events (quiet []) w1)) 0) 7
  = false.
Proof.
  intros w1.
  refine (proj2 (set_time_writes_valid_registers
                   example_dev (mk_tm 59 58 23 31 11 2099 6 364 0)
                   (quiet []) tt w1 example_dev_pins _ _)).
  - unfold tm_in_range. simpl. lia.
  - vm_compute. reflexivity.
Defined.
